(** * Privileged operation server and image-build monitor of the container runtime

    A shallow embedding of

    - [internal/pkg/runtime/engine/singularity/rpc/server/server_linux.go]
      (the RPC methods [Mount], [Decrypt], [Mkdir], [Chroot], [LoopDevice],
      [SetFsID]), and
    - [internal/pkg/runtime/engine/imgbuild/process_linux.go]
      ([MonitorContainer]),

    together with the properties of these functions that the specification
    states.

    The Go methods act on the operating system.  They are embedded as state
    transformers over a [World] (the part of the kernel and process state the
    methods read or write, plus the package variable [diskGID] and a trace of
    the external calls made so far).  What the environment answers to an
    external call is not decided by the methods: it is read from a [Kernel], a
    record of answer functions which may depend on the whole world, trace
    included.  Go's [error] is an optional message, [defer] is a stack of
    pending calls run when the function returns.  Filesystem ids are kept
    per thread, for the thread that serves a call and for the pinned thread
    of [mainthread.Execute].  Go's [int] and [uintptr]
    are 64 bits wide (integers are [Z], with the wrap-around written where a
    narrower type is involved).  The [sylog.Debugf] calls only write to the
    log and are left out. *)

From Stdlib Require Import ZArith List String Ascii Bool Lia.
Import ListNotations.

Local Open Scope string_scope.
Local Open Scope Z_scope.

(** ** Go values *)

(** A Go [error]: [None] is [nil], [Some msg] an error whose [Error()] is [msg]. *)
Definition error := option string.

(** [*os.File]: the descriptor and the name it was created with. *)
Record File := mkFile { Fd : Z; Name : string }.

(** [loop.Info64], the fields the request carries. *)
Record Info64 := mkInfo64 { Offset : Z; SizeLimit : Z; Flags : Z }.

(** [loop.Device]. *)
Record Device := mkDevice { MaxLoopDevices : Z; Shared : bool; Info : Info64 }.

(** Request payloads of package [rpc] (imported as [args]). *)
Record MountArgs := mkMountArgs
  { Source : string; Target : string; Filesystem : string;
    Mountflags : Z; Data : string }.

Record CryptArgs := mkCryptArgs
  { Key : list Z; Loopdev : string; MasterPid : Z }.

Record MkdirArgs := mkMkdirArgs { Path : string; Perm : Z }.

Record ChrootArgs := mkChrootArgs { Root : string; Method : string }.

Record LoopArgs := mkLoopArgs
  { Image : string; Mode : Z; LInfo : Info64; MaxDevices : Z; LShared : bool }.

Record SetFsIDArgs := mkSetFsIDArgs { UID : Z; GID : Z }.

(** ** External calls *)

(** Every call that leaves the package is recorded, with its arguments. *)
Inductive Event : Type :=
| EvMount (source target fstype : string) (flags : Z) (data : string)
| EvUnmount (target : string) (flags : Z)
| EvEnter (pid : Z) (ns : string)
| EvCryptOpen (key : list Z) (loopdev : string)
| EvUmask (mask : Z)
| EvMkdir (path : string) (perm : Z)
| EvChdir (path : string)
| EvFchdir (fd : Z)
| EvGetwd
| EvOpenFile (path : string) (flag perm : Z)
| EvNewFile (fd : Z)
| EvClose (fd : Z)
| EvPivotRoot (newroot putold : string)
| EvChroot (path : string)
| EvGetGrNam (name : string)
| EvLockOSThread
| EvUnlockOSThread
| EvSetfsuid (uid : Z)
| EvSetfsgid (gid : Z)
| EvAttachFromFile (dev : Device) (image : File) (mode : Z)
| EvWait4 (pid options : Z)
| EvKill (pid sig : Z).

(** The state the methods read and write.  The real, effective and saved
    ids, the creation mask, the working directory and the root belong to the
    process; the filesystem ids belong to a thread, and two threads matter:
    the thread that serves the call, and the pinned thread on which
    [mainthread.Execute] runs its closures. *)
Record World := mkWorld
  { trace : list Event;          (* external calls so far, oldest first *)
    uid : Z;                     (* real user id, [os.Getuid()] *)
    gid : Z;                     (* real group id, [os.Getgid()] *)
    fsuid : Z;                   (* filesystem user id of the serving thread *)
    fsgid : Z;                   (* filesystem group id of the serving thread *)
    umask : Z;                   (* file mode creation mask *)
    cwd : string;                (* current working directory *)
    root : string;               (* root directory *)
    ipcns : Z;                   (* IPC namespace the serving thread is in *)
    dirs : list (string * Z);    (* directories created, with their mode *)
    diskGID : Z;                 (* [var diskGID = -1] *)
    euid : Z;                    (* effective user id *)
    egid : Z;                    (* effective group id *)
    suid : Z;                    (* saved user id *)
    sgid : Z;                    (* saved group id *)
    main_fsuid : Z;              (* filesystem user id of the executor thread *)
    main_fsgid : Z               (* filesystem group id of the executor thread *)
  }.

Definition set_trace (x : list Event) (w : World) : World :=
  mkWorld x (uid w) (gid w) (fsuid w) (fsgid w) (umask w) (cwd w) (root w)
          (ipcns w) (dirs w) (diskGID w) (euid w) (egid w) (suid w) (sgid w)
          (main_fsuid w) (main_fsgid w).
Definition set_fsuid (x : Z) (w : World) : World :=
  mkWorld (trace w) (uid w) (gid w) x (fsgid w) (umask w) (cwd w) (root w)
          (ipcns w) (dirs w) (diskGID w) (euid w) (egid w) (suid w) (sgid w)
          (main_fsuid w) (main_fsgid w).
Definition set_fsgid (x : Z) (w : World) : World :=
  mkWorld (trace w) (uid w) (gid w) (fsuid w) x (umask w) (cwd w) (root w)
          (ipcns w) (dirs w) (diskGID w) (euid w) (egid w) (suid w) (sgid w)
          (main_fsuid w) (main_fsgid w).
Definition set_umask (x : Z) (w : World) : World :=
  mkWorld (trace w) (uid w) (gid w) (fsuid w) (fsgid w) x (cwd w) (root w)
          (ipcns w) (dirs w) (diskGID w) (euid w) (egid w) (suid w) (sgid w)
          (main_fsuid w) (main_fsgid w).
Definition set_cwd (x : string) (w : World) : World :=
  mkWorld (trace w) (uid w) (gid w) (fsuid w) (fsgid w) (umask w) x (root w)
          (ipcns w) (dirs w) (diskGID w) (euid w) (egid w) (suid w) (sgid w)
          (main_fsuid w) (main_fsgid w).
Definition set_root (x : string) (w : World) : World :=
  mkWorld (trace w) (uid w) (gid w) (fsuid w) (fsgid w) (umask w) (cwd w) x
          (ipcns w) (dirs w) (diskGID w) (euid w) (egid w) (suid w) (sgid w)
          (main_fsuid w) (main_fsgid w).
Definition set_ipcns (x : Z) (w : World) : World :=
  mkWorld (trace w) (uid w) (gid w) (fsuid w) (fsgid w) (umask w) (cwd w)
          (root w) x (dirs w) (diskGID w) (euid w) (egid w) (suid w)
          (sgid w) (main_fsuid w) (main_fsgid w).
Definition set_dirs (x : list (string * Z)) (w : World) : World :=
  mkWorld (trace w) (uid w) (gid w) (fsuid w) (fsgid w) (umask w) (cwd w)
          (root w) (ipcns w) x (diskGID w) (euid w) (egid w) (suid w)
          (sgid w) (main_fsuid w) (main_fsgid w).
Definition set_diskGID (x : Z) (w : World) : World :=
  mkWorld (trace w) (uid w) (gid w) (fsuid w) (fsgid w) (umask w) (cwd w)
          (root w) (ipcns w) (dirs w) x (euid w) (egid w) (suid w) (sgid w)
          (main_fsuid w) (main_fsgid w).
Definition set_main_fsuid (x : Z) (w : World) : World :=
  mkWorld (trace w) (uid w) (gid w) (fsuid w) (fsgid w) (umask w) (cwd w)
          (root w) (ipcns w) (dirs w) (diskGID w) (euid w) (egid w) (suid w)
          (sgid w) x (main_fsgid w).
Definition set_main_fsgid (x : Z) (w : World) : World :=
  mkWorld (trace w) (uid w) (gid w) (fsuid w) (fsgid w) (umask w) (cwd w)
          (root w) (ipcns w) (dirs w) (diskGID w) (euid w) (egid w) (suid w)
          (sgid w) (main_fsuid w) x.

(** The threads whose filesystem ids the methods can change. *)
Inductive Thread : Type := Serving | Executor.

Definition fsuid_of (t : Thread) (w : World) : Z :=
  match t with
  | Serving => fsuid w
  | Executor => main_fsuid w
  end.

Definition fsgid_of (t : Thread) (w : World) : Z :=
  match t with
  | Serving => fsgid w
  | Executor => main_fsgid w
  end.

Definition set_fsuid_of (t : Thread) (u : Z) (w : World) : World :=
  match t with
  | Serving => set_fsuid u w
  | Executor => set_main_fsuid u w
  end.

Definition set_fsgid_of (t : Thread) (g : Z) (w : World) : World :=
  match t with
  | Serving => set_fsgid g w
  | Executor => set_main_fsgid g w
  end.

(** The environment's answers.  Each answer may depend on the world at the
    time of the call, so the same call can succeed once and fail later. *)
Record Kernel := mkKernel
  { (* answer of a call that reports only success or an error *)
    sys_err : Event -> World -> error;
    (* descriptor or error of [os.Open] / [os.OpenFile] *)
    open_result : string -> Z -> Z -> World -> Z + string;
    (* directory a descriptor refers to *)
    fd_dir : Z -> World -> string;
    (* [crypt.Device.Open]: device name and error *)
    crypt_open : list Z -> string -> World -> string * error;
    (* [user.GetGrNam]: the group's id, or a failed lookup *)
    getgrnam : string -> World -> option Z;
    (* [loop.Device.AttachFromFile]: value stored through [number], error *)
    attach : Device -> File -> Z -> World -> option Z * error;
    (* [syscall.Wait4]: returned pid, wait status, error *)
    wait4 : Z -> Z -> World -> Z * Z * error;
    (* [os.Getpid()] *)
    getpid : Z;
    (* IPC namespace of a process, as [/proc/<pid>/ns/ipc] names it *)
    ipcns_of : Z -> Z;
    (* whether the calling thread holds [CAP_SETUID] and [CAP_SETGID] *)
    cap_setid : World -> bool;
    (* [syscall.Signal.String] *)
    signame : Z -> string
  }.

(** ** Stateful computations *)

Definition M (A : Type) : Type := World -> A * World.

Definition ret {A} (a : A) : M A := fun w => (a, w).

Definition bind {A B} (m : M A) (f : A -> M B) : M B :=
  fun w => let (a, w') := m w in f a w'.

Definition log (e : Event) : M unit :=
  fun w => (tt, set_trace (trace w ++ [e])%list w).

(** A call answered by [sys_err]: the call is recorded, and [effect] is
    applied when the kernel reports success. *)
Definition sys (k : Kernel) (e : Event) (effect : World -> World) : M error :=
  fun w =>
    match sys_err k e w with
    | None => (None, effect (set_trace (trace w ++ [e])%list w))
    | Some msg => (Some msg, set_trace (trace w ++ [e])%list w)
    end.

(** *** Function bodies with [return] and [defer] *)

(** A statement either falls through with a value or executes [return r]. *)
Inductive Flow (R A : Type) : Type :=
| Next (a : A)
| Return (r : R).
Arguments Next {R A} a.
Arguments Return {R A} r.

(** A statement of a function returning [R]: it sees the stack of deferred
    calls (most recent first) and the world. *)
Definition Body (R A : Type) : Type :=
  list (M unit) -> World -> Flow R A * list (M unit) * World.

Definition bindB {R A B} (m : Body R A) (f : A -> Body R B) : Body R B :=
  fun ds w =>
    match m ds w with
    | (Next a, ds', w') => f a ds' w'
    | (Return r, ds', w') => (Return r, ds', w')
    end.

Definition call {R A} (m : M A) : Body R A :=
  fun ds w => let (a, w') := m w in (Next a, ds, w').

Definition defer {R} (m : M unit) : Body R unit :=
  fun ds w => (Next tt, m :: ds, w).

Definition return_ {R A} (r : R) : Body R A :=
  fun ds w => (Return r, ds, w).

Definition skip {R} : Body R unit := fun ds w => (Next tt, ds, w).

(** Deferred calls run last-in first-out. *)
Fixpoint run_deferred (ds : list (M unit)) (w : World) : World :=
  match ds with
  | [] => w
  | d :: ds' => run_deferred ds' (snd (d w))
  end.

(** A function: its body, then its deferred calls. *)
Definition func {R} (b : Body R R) : M R :=
  fun w =>
    match b [] w with
    | (Next r, ds, w') => (r, run_deferred ds w')
    | (Return r, ds, w') => (r, run_deferred ds w')
    end.

Notation "x <- m ;; k" := (bindB m (fun x => k))
  (at level 61, m at next level, right associativity).
Notation "m ;;; k" := (bindB m (fun _ => k))
  (at level 61, right associativity).

(** ** Library calls *)

(** [fmt.Errorf(prefix + "%s", err)]. *)
Definition Errorf (prefix msg : string) : error := Some (prefix ++ msg).

(** Modelled from the spec: [mainthread.Execute] (package [mainthread] is not
    part of the sources at hand) marshals the closure onto the pinned worker
    thread and returns when it has run.  The closure's calls are made on that
    thread, the executor, not on the thread that serves the request: the
    closure is given the thread it runs on, for the calls that act on the
    state of a thread. *)
Definition mainthread_Execute {A} (f : Thread -> M A) : M A := f Executor.

(** [syscall.Mount]. *)
Definition syscall_Mount (k : Kernel) (source target fstype : string)
    (flags : Z) (data : string) : M error :=
  sys k (EvMount source target fstype flags data) (fun w => w).

(** [syscall.Unmount]. *)
Definition syscall_Unmount (k : Kernel) (target : string) (flags : Z) : M error :=
  sys k (EvUnmount target flags) (fun w => w).

(** Joining a relative path to the current directory. *)
Definition is_absolute (p : string) : bool := prefix "/" p.

Definition resolve (w : World) (p : string) : string :=
  if is_absolute p then p
  else if String.eqb p "." then cwd w
  else cwd w ++ "/" ++ p.

(** [syscall.Chdir]. *)
Definition syscall_Chdir (k : Kernel) (path : string) : M error :=
  sys k (EvChdir path) (fun w => set_cwd (resolve w path) w).

(** [syscall.Fchdir]. *)
Definition syscall_Fchdir (k : Kernel) (fd : Z) : M error :=
  sys k (EvFchdir fd) (fun w => set_cwd (fd_dir k fd w) w).

(** [syscall.Chroot]: the root changes, the working directory does not. *)
Definition syscall_Chroot (k : Kernel) (path : string) : M error :=
  sys k (EvChroot path) (fun w => set_root (resolve w path) w).

(** [syscall.PivotRoot]. *)
Definition syscall_PivotRoot (k : Kernel) (newroot putold : string) : M error :=
  sys k (EvPivotRoot newroot putold) (fun w => set_root (resolve w newroot) w).

(** [os.Getwd]. *)
Definition os_Getwd (k : Kernel) : M (string * error) :=
  fun w =>
    match sys_err k EvGetwd w with
    | None => ((cwd w, None), set_trace (trace w ++ [EvGetwd])%list w)
    | Some msg => (("", Some msg), set_trace (trace w ++ [EvGetwd])%list w)
    end.

(** [os.OpenFile]; [os.Open name] is [os.OpenFile name O_RDONLY 0]. *)
Definition os_OpenFile (k : Kernel) (name : string) (flag perm : Z)
  : M (File * error) :=
  fun w =>
    let w' := set_trace (trace w ++ [EvOpenFile name flag perm])%list w in
    match open_result k name flag perm w with
    | inl fd => ((mkFile fd name, None), w')
    | inr msg => ((mkFile (-1) name, Some msg), w')
    end.

Definition O_RDONLY : Z := 0.

Definition os_Open (k : Kernel) (name : string) : M (File * error) :=
  os_OpenFile k name O_RDONLY 0.

(** [os.NewFile]: wraps a descriptor, opens nothing. *)
Definition os_NewFile (fd : Z) (name : string) : M File :=
  fun w => (mkFile fd name, set_trace (trace w ++ [EvNewFile fd])%list w).

(** [Close] of an [os.File], result dropped. *)
Definition File_Close (k : Kernel) (f : File) : M unit :=
  fun w => (tt, snd (sys k (EvClose (Fd f)) (fun w => w) w)).

(** [syscall.Umask]: installs the permission bits of [mask], returns the
    previous mask. *)
Definition syscall_Umask (mask : Z) : M Z :=
  fun w =>
    (umask w,
     set_umask (Z.land mask 511) (set_trace (trace w ++ [EvUmask mask])%list w)).

(** [os.FileMode] flag bits and [os.syscallMode]. *)
Definition ModeSetuid : Z := Z.shiftl 1 23.
Definition ModeSetgid : Z := Z.shiftl 1 22.
Definition ModeSticky : Z := Z.shiftl 1 20.

Definition syscallMode (i : Z) : Z :=
  let o := Z.land i 511 in
  let o := if Z.eqb (Z.land i ModeSetuid) 0 then o else Z.lor o 2048 in
  let o := if Z.eqb (Z.land i ModeSetgid) 0 then o else Z.lor o 1024 in
  if Z.eqb (Z.land i ModeSticky) 0 then o else Z.lor o 512.

(** The mode [mkdir(2)] gives a new directory: the permission bits and the
    sticky bit of the mode asked for, less the bits of the creation mask. *)
Definition mkdir_mode (mode mask : Z) : Z :=
  Z.land (Z.land mode (Z.lnot mask)) 1023.

(** [os.Mkdir]: [mkdir(2)] with [syscallMode perm]. *)
Definition os_Mkdir (k : Kernel) (path : string) (perm : Z) : M error :=
  sys k (EvMkdir path perm)
      (fun w =>
         set_dirs ((path, mkdir_mode (syscallMode perm) (umask w)) :: dirs w) w).

(** [syscall.Setfsuid] on thread [t], result dropped.  As [setfsuid(2)]: the
    filesystem user id of the calling thread changes when the thread holds
    [CAP_SETUID] or the new id is the real, the effective, the saved or the
    current filesystem user id; otherwise nothing changes.  The new id is an
    id proper, in the range of [uid_t] and not [(uid_t)-1]: the methods pass
    [0], [os.Getuid()] and the ids a request carries, and the theorems on
    requests state that range. *)
Definition syscall_Setfsuid (k : Kernel) (t : Thread) (u : Z) : M unit :=
  fun w =>
    let w' := set_trace (trace w ++ [EvSetfsuid u])%list w in
    if cap_setid k w || Z.eqb u (uid w) || Z.eqb u (euid w) || Z.eqb u (suid w)
       || Z.eqb u (fsuid_of t w)
    then (tt, set_fsuid_of t u w') else (tt, w').

(** [syscall.Setfsgid] on thread [t], result dropped; as [setfsgid(2)], with
    [CAP_SETGID] and the group ids. *)
Definition syscall_Setfsgid (k : Kernel) (t : Thread) (g : Z) : M unit :=
  fun w =>
    let w' := set_trace (trace w ++ [EvSetfsgid g])%list w in
    if cap_setid k w || Z.eqb g (gid w) || Z.eqb g (egid w) || Z.eqb g (sgid w)
       || Z.eqb g (fsgid_of t w)
    then (tt, set_fsgid_of t g w') else (tt, w').

Definition runtime_LockOSThread : M unit := log EvLockOSThread.
Definition runtime_UnlockOSThread : M unit := log EvUnlockOSThread.

(** Modelled from the spec: [namespaces.Enter] (package [namespaces] is not
    part of the sources at hand) joins the named namespace of process [pid];
    on success the thread is in that process's namespace. *)
Definition namespaces_Enter (k : Kernel) (pid : Z) (ns : string) : M error :=
  sys k (EvEnter pid ns) (fun w => set_ipcns (ipcns_of k pid) w).

(** [crypt.Device.Open]. *)
Definition cryptDev_Open (k : Kernel) (key : list Z) (loopdev : string)
  : M (string * error) :=
  fun w => (crypt_open k key loopdev w,
            set_trace (trace w ++ [EvCryptOpen key loopdev])%list w).

(** [user.GetGrNam]; the group id is a [uint32]. *)
Definition user_GetGrNam (k : Kernel) (name : string) : M (option Z) :=
  fun w => (option_map (fun g => g mod 2 ^ 32) (getgrnam k name w),
            set_trace (trace w ++ [EvGetGrNam name])%list w).

(** [loop.Device.AttachFromFile]. *)
Definition loopdev_AttachFromFile (k : Kernel) (dev : Device) (image : File)
    (mode : Z) : M (option Z * error) :=
  fun w => (attach k dev image mode w,
            set_trace (trace w ++ [EvAttachFromFile dev image mode])%list w).

(** [syscall.Wait4 pid &status options nil]. *)
Definition syscall_Wait4 (k : Kernel) (pid options : Z) : M (Z * Z * error) :=
  fun w => (wait4 k pid options w,
            set_trace (trace w ++ [EvWait4 pid options])%list w).

(** [syscall.Kill]. *)
Definition syscall_Kill (k : Kernel) (pid sig : Z) : M error :=
  sys k (EvKill pid sig) (fun w => w).

(** *** Package [strings] *)

Definition strings_HasPrefix (s pre : string) : bool := prefix pre s.

Definition strings_TrimPrefix (s pre : string) : string :=
  if strings_HasPrefix s pre
  then substring (String.length pre) (String.length s - String.length pre) s
  else s.

(** *** Package [strconv] *)

Inductive NumErr : Type := ErrSyntax | ErrRange.

Definition byte_of (c : ascii) : Z := Z.of_N (N_of_ascii c).

(** [lower(c)] is [c | ('x' - 'X')]. *)
Definition lower (c : Z) : Z := Z.lor c 32.

(** The value of a byte as a digit, if it is a digit or a letter. *)
Definition digit_val (c : Z) : option Z :=
  if (48 <=? c) && (c <=? 57) then Some (c - 48)
  else if (97 <=? lower c) && (lower c <=? 122) then Some (lower c - 97 + 10)
  else None.

(** The loop of [strconv.ParseUint] over the bytes of the string, for an
    explicit base between 2 and 36 (an underscore is then a syntax error);
    [n] is the [uint64] accumulator. *)
Fixpoint ParseUint_loop (base cutoff maxVal : Z) (s : string) (n : Z)
  : Z + NumErr :=
  match s with
  | EmptyString => inl n
  | String c s' =>
      match digit_val (byte_of c) with
      | None => inr ErrSyntax
      | Some d =>
          if d >=? base then inr ErrSyntax
          else if n >=? cutoff then inr ErrRange
          else
            let n := (n * base) mod 2 ^ 64 in
            let n1 := (n + d) mod 2 ^ 64 in
            if (n1 <? n) || (n1 >? maxVal) then inr ErrRange
            else ParseUint_loop base cutoff maxVal s' n1
      end
  end.

(** [strconv.ParseUint s base bitSize] for [2 <= base <= 36] and
    [1 <= bitSize <= 64]. *)
Definition strconv_ParseUint (s : string) (base bitSize : Z) : Z + NumErr :=
  match s with
  | EmptyString => inr ErrSyntax
  | _ =>
      let cutoff := (2 ^ 64 - 1) / base + 1 in
      let maxVal := 2 ^ bitSize - 1 in
      ParseUint_loop base cutoff maxVal s 0
  end.

Definition dquote : string := String (ascii_of_nat 34) EmptyString.

(** [Error()] of a [strconv.NumError]; the quoted operand is rendered for an operand
    without characters that need escaping. *)
Definition NumError_Error (fn num : string) (e : NumErr) : string :=
  "strconv." ++ fn ++ ": parsing " ++ dquote ++ num ++ dquote ++ ": " ++
  match e with
  | ErrSyntax => "invalid syntax"
  | ErrRange => "value out of range"
  end.

(** ** Package [server] *)

(** Fall through with a value. *)
Definition next {R A} (a : A) : Body R A := fun ds w => (Next a, ds, w).

(** [if err != nil { return r err }]. *)
Definition check {R} (err : error) (r : string -> R) : Body R unit :=
  match err with
  | Some e => return_ (r e)
  | None => skip
  end.

(** Reading and writing the package variable [diskGID]. *)
Definition read_diskGID : M Z := fun w => (diskGID w, w).
Definition write_diskGID (g : Z) : M unit := fun w => (tt, set_diskGID g w).

Definition os_Getuid : M Z := fun w => (uid w, w).
Definition os_Getgid : M Z := fun w => (gid w, w).

Definition MS_REC : Z := 16384.
Definition MS_SLAVE : Z := 524288.
Definition MS_MOVE : Z := 8192.
Definition MNT_DETACH : Z := 2.

(** [Mount]: the pair is the value left in [*mountErr] and the returned
    error. *)
Definition Mount (k : Kernel) (arguments : MountArgs) : M (error * error) :=
  func (
    mountErr <- call (mainthread_Execute (fun _ =>
      syscall_Mount k (Source arguments) (Target arguments)
        (Filesystem arguments) (Mountflags arguments) (Data arguments))) ;;
    return_ (mountErr, None)).

(** The first [if] of [Decrypt]: entering the host IPC namespace. *)
Definition Decrypt_enter_host (k : Kernel) (arguments : CryptArgs)
    (reply : string) : Body (string * error) unit :=
  if MasterPid arguments >? 0 then
    call runtime_LockOSThread ;;;
    defer runtime_UnlockOSThread ;;;
    err <- call (namespaces_Enter k (MasterPid arguments) "ipc") ;;
    check err (fun e => (reply, Errorf "while joining host IPC namespace: " e))
  else skip.

(** [Decrypt]: [reply] is the string [*reply] holds when the method is
    entered; the pair is the value left in [*reply] and the returned error. *)
Definition Decrypt (k : Kernel) (arguments : CryptArgs) (reply : string)
  : M (string * error) :=
  func (
    Decrypt_enter_host k arguments reply ;;;
    r <- call (cryptDev_Open k (Key arguments) (Loopdev arguments)) ;;
    let (cryptName, err) := r in
    (if MasterPid arguments >? 0 then
       err <- call (namespaces_Enter k (getpid k) "ipc") ;;
       check err
         (fun e => (reply, Errorf "while joining container IPC namespace: " e))
     else skip) ;;;
    return_ ("/dev/mapper/" ++ cryptName, err)).

(** [Mkdir]. *)
Definition Mkdir (k : Kernel) (arguments : MkdirArgs) : M error :=
  func (
    err <- call (mainthread_Execute (fun _ =>
       bind (syscall_Umask 0) (fun oldmask =>
       bind (os_Mkdir k (Path arguments) (Perm arguments)) (fun err =>
       bind (syscall_Umask oldmask) (fun _ =>
       ret err))))) ;;
    return_ err).

(** The [case "pivot"] branch of [Chroot]. *)
Definition Chroot_pivot (k : Kernel) (root : string) : Body error unit :=
  r <- call (os_Open k "/") ;;
  let (oldroot, err) := r in
  check err (fun e => Errorf "failed to open host root directory: " e) ;;;
  defer (File_Close k oldroot) ;;;
  err <- call (syscall_PivotRoot k "." ".") ;;
  check err (fun e => Errorf ("pivot_root " ++ root ++ ": ") e) ;;;
  err <- call (syscall_Fchdir k (Fd oldroot)) ;;
  check err (fun e => Errorf "failed to change directory to old root: " e) ;;;
  err <- call (syscall_Mount k "" "." "" (Z.lor MS_SLAVE MS_REC) "") ;;
  check err (fun e =>
    Errorf "failed to apply slave mount propagation for host / directory: " e) ;;;
  err <- call (syscall_Unmount k "." MNT_DETACH) ;;
  check err (fun e => Errorf "unmount pivot_root dir " e).

(** The [case "move"] branch of [Chroot]. *)
Definition Chroot_move (k : Kernel) (root : string) : Body error unit :=
  err <- call (syscall_Mount k "." "/" "" MS_MOVE "") ;;
  check err (fun e => Errorf ("failed to move " ++ root ++ " as / directory: ") e) ;;;
  err <- call (syscall_Chroot k ".") ;;
  check err (fun e => Errorf "chroot failed: " e).

(** The [case "chroot"] branch of [Chroot]. *)
Definition Chroot_chroot (k : Kernel) (root : string) : Body error unit :=
  err <- call (syscall_Chroot k ".") ;;
  check err (fun e => Errorf "chroot failed: " e).

(** The first [if] of [Chroot]: entering the new root; the value is the
    local [root]. *)
Definition Chroot_enter (k : Kernel) (arguments : ChrootArgs)
  : Body error string :=
  if negb (String.eqb (Root arguments) ".") then
    err <- call (syscall_Chdir k (Root arguments)) ;;
    check err
      (fun _ => Errorf "failed to change directory to " (Root arguments)) ;;;
    next (Root arguments)
  else
    r <- call (os_Getwd k) ;;
    let (cwd, err) := r in
    match err with
    | None => next cwd
    | Some _ => next (Root arguments)
    end.

(** The [switch] of [Chroot]; it has no [default]. *)
Definition Chroot_switch (k : Kernel) (arguments : ChrootArgs) (root : string)
  : Body error unit :=
  if String.eqb (Method arguments) "pivot" then Chroot_pivot k root
  else if String.eqb (Method arguments) "move" then Chroot_move k root
  else if String.eqb (Method arguments) "chroot" then Chroot_chroot k root
  else skip.

(** [Chroot] up to the final change of directory. *)
Definition Chroot_before (k : Kernel) (arguments : ChrootArgs)
  : Body error unit :=
  root <- Chroot_enter k arguments ;;
  Chroot_switch k arguments root.

(** [Chroot]. *)
Definition Chroot (k : Kernel) (arguments : ChrootArgs) : M error :=
  func (
    Chroot_before k arguments ;;;
    err <- call (syscall_Chdir k "/") ;;
    check err (fun e => Errorf "chdir / " e) ;;;
    return_ None).

(** The reserved prefix naming the process's own open descriptors. *)
Definition fd_prefix : string := "/proc/self/fd/".

(** The image of [LoopDevice]: an inherited descriptor or an opened path. *)
Definition LoopDevice_image (k : Kernel) (arguments : LoopArgs) (reply : Z)
  : Body (Z * error) File :=
  if strings_HasPrefix (Image arguments) fd_prefix then
    let strFd := strings_TrimPrefix (Image arguments) fd_prefix in
    match strconv_ParseUint strFd 10 32 with
    | inr err =>
        return_ (reply,
                 Errorf "failed to convert image file descriptor: "
                        (NumError_Error "ParseUint" strFd err))
    | inl fd => call (os_NewFile fd "")
    end
  else
    r <- call (os_OpenFile k (Image arguments) (Mode arguments) 384) ;;
    let (image, err) := r in
    check err (fun e => (reply, Errorf "could not open image file: " e)) ;;;
    next image.

(** The lazy resolution of [diskGID] in [LoopDevice]. *)
Definition LoopDevice_diskGID (k : Kernel) : Body (Z * error) unit :=
  g <- call read_diskGID ;;
  if Z.eqb g (-1) then
    gr <- call (user_GetGrNam k "disk") ;;
    match gr with
    | Some grGID => call (write_diskGID grGID)
    | None => call (write_diskGID 0)
    end
  else skip.

(** The escalation bracket and the attach of [LoopDevice], on the thread that
    serves the call, which [runtime.LockOSThread] keeps for the goroutine. *)
Definition LoopDevice_attach (k : Kernel) (arguments : LoopArgs) (reply : Z)
    (loopdev : Device) (image : File) : Body (Z * error) (Z * error) :=
  call runtime_LockOSThread ;;;
  call (syscall_Setfsuid k Serving 0) ;;;
  g <- call read_diskGID ;;
  call (syscall_Setfsgid k Serving g) ;;;
  defer runtime_UnlockOSThread ;;;
  u <- call os_Getuid ;;
  defer (syscall_Setfsuid k Serving u) ;;;
  g <- call os_Getgid ;;
  defer (syscall_Setfsgid k Serving g) ;;;
  r <- call (loopdev_AttachFromFile k loopdev image (Mode arguments)) ;;
  let (number, err) := r in
  let reply := match number with Some n => n | None => reply end in
  check err (fun e =>
    (reply, Errorf "could not attach image file to loop device: " e)) ;;;
  return_ (reply, None).

(** [LoopDevice]: [reply] is the integer [*reply] holds when the method is
    entered; the pair is the value left in [*reply] and the returned error. *)
Definition LoopDevice (k : Kernel) (arguments : LoopArgs) (reply : Z)
  : M (Z * error) :=
  func (
    let loopdev :=
      mkDevice (MaxDevices arguments) (LShared arguments) (LInfo arguments) in
    image <- LoopDevice_image k arguments reply ;;
    LoopDevice_diskGID k ;;;
    LoopDevice_attach k arguments reply loopdev image).

(** [SetFsID]. *)
Definition SetFsID (k : Kernel) (arguments : SetFsIDArgs) : M error :=
  func (
    call (mainthread_Execute (fun t =>
      bind (syscall_Setfsuid k t (UID arguments)) (fun _ =>
      syscall_Setfsgid k t (GID arguments)))) ;;;
    return_ None).

(** ** Package [imgbuild] *)

Definition SIGCHLD : Z := 17.
Definition WNOHANG : Z := 1.

(** The [for] loop of [MonitorContainer].  [signals] is what the channel
    delivers, in order; [status] is the local variable.  The result is
    [None] when the loop is blocked on a receive after the last signal, and
    [Some (status, err)] when the method has returned. *)
Fixpoint MonitorContainer_loop (k : Kernel) (pid : Z) (status : Z)
    (signals : list Z) : M (option (Z * error)) :=
  match signals with
  | [] => ret None
  | s :: rest =>
      if Z.eqb s SIGCHLD then
        bind (syscall_Wait4 k pid WNOHANG) (fun r =>
          let '(wpid, status, err) := r in
          match err with
          | Some e => ret (Some (status, Errorf "error while waiting child: " e))
          | None =>
              if negb (Z.eqb wpid pid)
              then MonitorContainer_loop k pid status rest
              else ret (Some (status, None))
          end)
      else
        bind (syscall_Kill k pid s) (fun err =>
          match err with
          | Some _ =>
              ret (Some (status, Errorf "interrupted by signal " (signame k s)))
          | None => MonitorContainer_loop k pid status rest
          end)
  end.

(** [MonitorContainer]. *)
Definition MonitorContainer (k : Kernel) (pid : Z) (signals : list Z)
  : M (option (Z * error)) :=
  MonitorContainer_loop k pid 0 signals.

(** * Vocabulary of the properties *)

(** The calls a method added to the trace. *)
Definition new_events (w w' : World) : list Event :=
  skipn (List.length (trace w)) (trace w').

(** The filesystem identity of the thread is the same in two worlds. *)
Definition fs_identity_preserved (w w' : World) : Prop :=
  fsuid w' = fsuid w /\ fsgid w' = fsgid w.

(** Decimal numerals: a non-empty string of the digits 0 to 9, and the number
    it denotes. *)
Definition is_digit (c : ascii) : bool :=
  (48 <=? byte_of c) && (byte_of c <=? 57).

Fixpoint all_digits (s : string) : bool :=
  match s with
  | EmptyString => true
  | String c s' => is_digit c && all_digits s'
  end.

Definition is_decimal (s : string) : bool :=
  match s with
  | EmptyString => false
  | _ => all_digits s
  end.

Fixpoint decimal_acc (n : Z) (s : string) : Z :=
  match s with
  | EmptyString => n
  | String c s' => decimal_acc (10 * n + (byte_of c - 48)) s'
  end.

Definition decimal_value (s : string) : Z := decimal_acc 0 s.

(** The image reference makes the call adopt descriptor [N]: the descriptor
    is wrapped, it is the image attached, and no path is opened. *)
Definition adopts_descriptor (N : Z) (w w' : World) : Prop :=
  In (EvNewFile N) (new_events w w') /\
  (exists dev mode,
      In (EvAttachFromFile dev (mkFile N "") mode) (new_events w w')) /\
  (forall p f m, ~ In (EvOpenFile p f m) (new_events w w')).

(** Group database lookups in a trace. *)
Fixpoint lookups (t : list Event) : nat :=
  match t with
  | [] => 0%nat
  | EvGetGrNam _ :: t' => S (lookups t')
  | _ :: t' => lookups t'
  end.

(** [sub] occurs in [s]. *)
Definition contains (s sub : string) : bool :=
  match index 0 sub s with
  | Some _ => true
  | None => false
  end.

(** An error that carries the kernel's message together with the source and
    the target of the mount. *)
Definition wraps_mount_error (a : MountArgs) (kerr : string) (e : error) : Prop :=
  exists m, e = Some m /\ contains m kerr = true /\
            contains m (Source a) = true /\ contains m (Target a) = true.

(** The reply of [Decrypt] is the mapper path of device [name]. *)
Definition reply_is_mapper_path (name : string) (r : string * error) : Prop :=
  fst r = "/dev/mapper/" ++ name.

(** An unknown strategy is accepted: the final change of directory to the
    root is made and the call succeeds. *)
Definition accepts_unknown_method (w : World) (r : error * World) : Prop :=
  In (EvChdir "/") (new_events w (snd r)) /\ fst r = None.

(** A [return] met in a block returns an error. *)
Definition returns_error {A} (f : Flow error A) : Prop :=
  match f with
  | Return r => r <> None
  | Next _ => True
  end.

(** The operations that switch the root or prepare the switch. *)
Definition is_root_switch (e : Event) : bool :=
  match e with
  | EvPivotRoot _ _ | EvChroot _ | EvMount _ _ _ _ _ | EvUnmount _ _
  | EvFchdir _ | EvOpenFile _ _ _ => true
  | _ => false
  end.

Definition is_close (e : Event) : bool :=
  match e with
  | EvClose _ => true
  | _ => false
  end.

(** The event a received signal causes in [MonitorContainer]. *)
Definition signal_event (pid s : Z) : Event :=
  if Z.eqb s SIGCHLD then EvWait4 pid WNOHANG else EvKill pid s.

(** The loop of [MonitorContainer] started in a state: the local [status],
    the signals still to come, the world. *)
Definition run_state (k : Kernel) (pid : Z) (x : Z * list Z * World)
  : option (Z * error) * World :=
  let '(st, signals, w) := x in MonitorContainer_loop k pid st signals w.

(** One iteration of the loop of [MonitorContainer] that goes on to the next
    receive: a state is the local [status], the signals still to come and the
    world. *)
Inductive continues (k : Kernel) (pid : Z)
  : Z * list Z * World -> Z * list Z * World -> Prop :=
| continues_forward st s rest w :
    s <> SIGCHLD ->
    sys_err k (EvKill pid s) w = None ->
    continues k pid (st, s :: rest, w)
              (st, rest, snd (syscall_Kill k pid s w))
| continues_other_child st rest w wpid st' :
    wait4 k pid WNOHANG w = (wpid, st', None) ->
    wpid <> pid ->
    continues k pid (st, SIGCHLD :: rest, w)
              (st', rest, snd (syscall_Wait4 k pid WNOHANG w)).

(** Any number of such iterations. *)
Inductive continues_star (k : Kernel) (pid : Z)
  : Z * list Z * World -> Z * list Z * World -> Prop :=
| continues_refl x : continues_star k pid x x
| continues_step x y z :
    continues k pid x y -> continues_star k pid y z -> continues_star k pid x z.

(** The worlds [LoopDevice] passes through after the image is at hand: after
    the lazy resolution of [diskGID], after the escalation, and after the
    deferred calls that close the bracket for real ids [u] and [g]. *)
Definition after_resolution (k : Kernel) (w : World) : World :=
  if Z.eqb (diskGID w) (-1)
  then set_diskGID
         (match getgrnam k "disk" w with
          | Some g => g mod 2 ^ 32
          | None => 0
          end)
         (snd (log (EvGetGrNam "disk") w))
  else w.

Definition escalated (k : Kernel) (w : World) : World :=
  let w1 := snd (syscall_Setfsuid k Serving 0 (snd (runtime_LockOSThread w))) in
  snd (syscall_Setfsgid k Serving (diskGID w1) w1).

Definition restored (k : Kernel) (u g : Z) (w : World) : World :=
  snd (runtime_UnlockOSThread
         (snd (syscall_Setfsuid k Serving u
                 (snd (syscall_Setfsgid k Serving g w))))).

(** What [LoopDevice] hands back for an answer of the attach. *)
Definition attach_outcome (reply : Z) (r : option Z * error) : Z * error :=
  let reply' := match fst r with Some n => n | None => reply end in
  match snd r with
  | Some e => (reply', Errorf "could not attach image file to loop device: " e)
  | None => (reply', None)
  end.

(** The bounds [strconv.ParseUint] computes for base 10 and 32 bits. *)
Definition cutoff10 : Z := (2 ^ 64 - 1) / 10 + 1.
Definition maxVal32 : Z := 2 ^ 32 - 1.

(** ** Concrete environments *)

(** Every call succeeds; group "disk" has id 6. *)
Definition kernel_ok : Kernel :=
  mkKernel (fun _ _ => None) (fun _ _ _ _ => inl 3) (fun _ _ => "(unreachable)/")
           (fun _ _ _ => ("crypt0", None)) (fun _ _ => Some 6)
           (fun _ _ _ _ => (Some 0, None)) (fun pid _ _ => (pid, 0, None))
           4242 (fun pid => if Z.eqb pid 4242 then 2 else 1) (fun _ => true)
           (fun _ => "signal").

(** Every call fails; there is no group "disk". *)
Definition kernel_fail : Kernel :=
  mkKernel (fun _ _ => Some "operation not permitted")
           (fun _ _ _ _ => inr "no such file or directory")
           (fun _ _ => "(unreachable)/")
           (fun _ _ _ => ("", Some "cryptsetup failed")) (fun _ _ => None)
           (fun _ _ _ _ => (None, Some "no loop devices available"))
           (fun _ _ _ => (-1, 0, Some "no child processes"))
           4242 (fun pid => if Z.eqb pid 4242 then 2 else 1) (fun _ => false)
           (fun _ => "signal").

(** As [kernel_ok], but the process cannot re-join its own IPC namespace. *)
Definition kernel_no_rejoin : Kernel :=
  mkKernel (fun e _ => match e with
                       | EvEnter pid _ =>
                           if Z.eqb pid 4242 then Some "invalid argument" else None
                       | _ => None
                       end)
           (open_result kernel_ok) (fd_dir kernel_ok) (crypt_open kernel_ok)
           (getgrnam kernel_ok) (attach kernel_ok) (wait4 kernel_ok)
           4242 (ipcns_of kernel_ok) (cap_setid kernel_ok) (signame kernel_ok).

(** As [kernel_ok], but no directory can be entered. *)
Definition kernel_no_chdir : Kernel :=
  mkKernel (fun e _ => match e with
                       | EvChdir _ => Some "no such file or directory"
                       | _ => None
                       end)
           (open_result kernel_ok) (fd_dir kernel_ok) (crypt_open kernel_ok)
           (getgrnam kernel_ok) (attach kernel_ok) (wait4 kernel_ok)
           4242 (ipcns_of kernel_ok) (cap_setid kernel_ok) (signame kernel_ok).

(** As [kernel_ok], but the tracked child (pid 5) is reaped only at the
    second attempt: the first reap finds another child (pid 9). *)
Definition kernel_two_children : Kernel :=
  mkKernel (sys_err kernel_ok)
           (open_result kernel_ok) (fd_dir kernel_ok) (crypt_open kernel_ok)
           (getgrnam kernel_ok) (attach kernel_ok)
           (fun pid _ w =>
              if existsb (fun e => match e with EvWait4 _ _ => true | _ => false end)
                         (trace w)
              then (pid, 256, None) else (9, 0, None))
           4242 (ipcns_of kernel_ok) (cap_setid kernel_ok) (signame kernel_ok).

(** As [kernel_ok], after the group database changed: "disk" now has id 99. *)
Definition kernel_regrouped : Kernel :=
  mkKernel (sys_err kernel_ok)
           (open_result kernel_ok) (fd_dir kernel_ok) (crypt_open kernel_ok)
           (fun _ _ => Some 99) (attach kernel_ok) (wait4 kernel_ok)
           4242 (ipcns_of kernel_ok) (cap_setid kernel_ok) (signame kernel_ok).

(** As [kernel_ok], but the encrypted device cannot be unlocked. *)
Definition kernel_locked : Kernel :=
  mkKernel (sys_err kernel_ok)
           (open_result kernel_ok) (fd_dir kernel_ok)
           (fun _ _ _ => ("", Some "no key available with this passphrase"))
           (getgrnam kernel_ok) (attach kernel_ok) (wait4 kernel_ok)
           4242 (ipcns_of kernel_ok) (cap_setid kernel_ok) (signame kernel_ok).

(** A process of user 1000 in its own IPC namespace 2, mask 022, not yet
    having looked up the disk group. *)
Definition world_user : World :=
  mkWorld [] 1000 1000 1000 1000 18 "/home/user" "/" 2 [] (-1)
          1000 1000 1000 1000 1000 1000.

(** A set-user-ID-root server started by user 1000: the real ids are the
    user's, the effective and the saved user id are 0, and the filesystem
    user id of each thread is 0, the effective user id, which it follows
    until it is set by itself; the group ids are the user's. *)
Definition world_setuid : World :=
  mkWorld [] 1000 1000 0 1000 18 "/home/user" "/" 2 [] (-1)
          0 1000 0 1000 0 1000.

(** A process of the superuser. *)
Definition world_root : World :=
  mkWorld [] 0 0 0 0 18 "/" "/" 2 [] (-1) 0 0 0 0 0 0.

Definition loop_args (image : string) : LoopArgs :=
  mkLoopArgs image 2 (mkInfo64 0 0 0) 256 false.

Definition mount_proc : MountArgs := mkMountArgs "/proc" "/new/proc" "proc" 0 "".

(** ** Further vocabulary *)

(** The call by which [Chroot] enters the new root. *)
Definition enter_event (a : ChrootArgs) : Event :=
  if String.eqb (Root a) "." then EvGetwd else EvChdir (Root a).

(** The calls of a strategy that runs to its end, [fd] being the descriptor
    of the host root, and the calls it leaves deferred. *)
Definition strategy_calls (method : string) (fd : Z) : list Event :=
  if String.eqb method "pivot" then
    [EvOpenFile "/" O_RDONLY 0; EvPivotRoot "." "."; EvFchdir fd;
     EvMount "" "." "" (Z.lor MS_SLAVE MS_REC) ""; EvUnmount "." MNT_DETACH]
  else if String.eqb method "move" then
    [EvMount "." "/" "" MS_MOVE ""; EvChroot "."]
  else if String.eqb method "chroot" then [EvChroot "."]
  else [].

Definition strategy_closes (method : string) (fd : Z) : list Event :=
  if String.eqb method "pivot" then [EvClose fd] else [].

Definition known_method (method : string) : bool :=
  String.eqb method "pivot" || String.eqb method "move"
  || String.eqb method "chroot".

(** The environment refused the call [ev] made in world [w]. *)
Definition refused (k : Kernel) (ev : Event) (w : World) : Prop :=
  sys_err k ev w <> None \/
  exists p f m msg, ev = EvOpenFile p f m /\ open_result k p f m w = inr msg.

Definition is_lock (e : Event) : bool :=
  match e with
  | EvLockOSThread => true
  | _ => false
  end.

Definition is_unlock (e : Event) : bool :=
  match e with
  | EvUnlockOSThread => true
  | _ => false
  end.

Definition is_setfsid (e : Event) : bool :=
  match e with
  | EvSetfsuid _ | EvSetfsgid _ => true
  | _ => false
  end.

(** An id proper: in the range of [uid_t] and not [(uid_t)-1], which the
    kernel takes for "no id". *)
Definition valid_id (u : Z) : Prop := 0 <= u < 2 ^ 32 - 1.

(** The thread is privileged in every world. *)
Definition privileged (k : Kernel) : Prop := forall w, cap_setid k w = true.

(** Modelled from the spec: [mainthread.Chdir] (package [mainthread] is not
    part of the sources at hand) changes the directory on the pinned worker
    thread and hands back the error of the change. *)
Definition mainthread_Chdir (k : Kernel) (dir : string) : M error :=
  mainthread_Execute (fun _ => syscall_Chdir k dir).

(** [Chdir] of package [server]. *)
Definition Chdir (k : Kernel) (dir : string) : M error :=
  mainthread_Chdir k dir.

(** *** The environment of the build scripts *)

(** [strings.SplitN(s, "=", 2)[0]]: the part of [s] before its first equals
    sign, all of [s] if it has none. *)
Fixpoint env_key (s : string) : string :=
  match s with
  | EmptyString => EmptyString
  | String c s' =>
      if Ascii.eqb c "="%char then EmptyString else String c (env_key s')
  end.

(** The test of the last loop of [cleanEnv]. *)
Definition is_build_var (envVar : string) : bool :=
  String.eqb (env_key envVar) "SINGULARITY_ROOTFS"
  || String.eqb (env_key envVar) "SINGULARITY_ENVIRONMENT".

(** [cleanEnv], on the process environment of the OCI configuration.
    [setContainerEnv genv environment clean home] is the environment
    [env.SetContainerEnv] (not part of the sources at hand) leaves in a
    generator that held [genv]. *)
Definition cleanEnv
    (setContainerEnv : list string -> list string -> bool -> string -> list string)
    (processEnv : list string) : list string :=
  let environment := processEnv in
  let processEnv := [] in
  let homeDest := "/root" in
  let processEnv := setContainerEnv processEnv environment true homeDest in
  fold_left
    (fun env envVar =>
       if is_build_var envVar then (env ++ [envVar])%list else env)
    environment processEnv.

(** A string without an equals sign. *)
Fixpoint no_equals (s : string) : bool :=
  match s with
  | EmptyString => true
  | String c s' => negb (Ascii.eqb c "="%char) && no_equals s'
  end.

(** *** More environments *)

(** As [kernel_ok], but the namespace of process 1 cannot be joined. *)
Definition kernel_no_host_join : Kernel :=
  mkKernel (fun e _ => match e with
                       | EvEnter pid _ =>
                           if Z.eqb pid 1 then Some "operation not permitted"
                           else None
                       | _ => None
                       end)
           (open_result kernel_ok) (fd_dir kernel_ok) (crypt_open kernel_ok)
           (getgrnam kernel_ok) (attach kernel_ok) (wait4 kernel_ok)
           4242 (ipcns_of kernel_ok) (cap_setid kernel_ok) (signame kernel_ok).

(** As [kernel_ok], but the old root cannot be detached. *)
Definition kernel_no_unmount : Kernel :=
  mkKernel (fun e _ => match e with
                       | EvUnmount _ _ => Some "device or resource busy"
                       | _ => None
                       end)
           (open_result kernel_ok) (fd_dir kernel_ok) (crypt_open kernel_ok)
           (getgrnam kernel_ok) (attach kernel_ok) (wait4 kernel_ok)
           4242 (ipcns_of kernel_ok) (cap_setid kernel_ok) (signame kernel_ok).

(** As [kernel_ok], but SIGKILL cannot be delivered. *)
Definition kernel_no_kill : Kernel :=
  mkKernel (fun e _ => match e with
                       | EvKill _ 9 => Some "no such process"
                       | _ => None
                       end)
           (open_result kernel_ok) (fd_dir kernel_ok) (crypt_open kernel_ok)
           (getgrnam kernel_ok) (attach kernel_ok) (wait4 kernel_ok)
           4242 (ipcns_of kernel_ok) (cap_setid kernel_ok) (signame kernel_ok).

(** * Properties *)

(** ** Running a method *)

Ltac go :=
  unfold func, bindB, call, defer, return_, skip, next, check, bind, ret,
    mainthread_Execute, Errorf;
  cbn.

(** Case analysis on the next answer of the environment. *)
Ltac answer :=
  match goal with
  | |- context [match sys_err ?k ?e ?w with _ => _ end] =>
      destruct (sys_err k e w) eqn:?
  | |- context [match open_result ?k ?p ?f ?m ?w with _ => _ end] =>
      destruct (open_result k p f m w) eqn:?
  | |- context [match getgrnam ?k ?n ?w with _ => _ end] =>
      destruct (getgrnam k n w) eqn:?
  | |- context [attach ?k ?d ?i ?m ?w] =>
      destruct (attach k d i m w) as [[?|] [?|]] eqn:?
  | |- context [crypt_open ?k ?key ?d ?w] =>
      destruct (crypt_open k key d w) as [? [?|]] eqn:?
  | |- context [cap_setid ?k ?w] =>
      destruct (cap_setid k w) eqn:?
  end; cbn.

Ltac crunch :=
  repeat (first [ progress go | answer ]).

(** A block met on every path: each path is run to its end. *)
Ltac shape :=
  crunch;
  let H := fresh in
  intros H; inversion H; subst; cbn;
  repeat split; eauto; try discriminate.

(** ** Mount *)

Lemma Mount_eq (k : Kernel) (a : MountArgs) (w : World) :
  Mount k a w =
  (sys_err k (EvMount (Source a) (Target a) (Filesystem a) (Mountflags a) (Data a)) w,
   None,
   snd (log (EvMount (Source a) (Target a) (Filesystem a) (Mountflags a) (Data a)) w)).
Proof.
  unfold Mount, syscall_Mount, sys. go. answer; reflexivity.
Qed.

(** C7 (as stated, refuted).  The kernel refuses the mount of [/proc] on
    [/new/proc]: neither the error the method returns (it is [nil]) nor the
    error it leaves in the reply (the kernel's message alone) carries the
    source and the target. *)
Lemma Mount_error_not_wrapped :
  sys_err kernel_fail (EvMount "/proc" "/new/proc" "proc" 0 "") world_user
    = Some "operation not permitted" /\
  Mount kernel_fail mount_proc world_user
    = (Some "operation not permitted", None,
       snd (log (EvMount "/proc" "/new/proc" "proc" 0 "") world_user)) /\
  ~ wraps_mount_error mount_proc "operation not permitted"
      (snd (fst (Mount kernel_fail mount_proc world_user))) /\
  ~ wraps_mount_error mount_proc "operation not permitted"
      (fst (fst (Mount kernel_fail mount_proc world_user))).
Proof.
  repeat split.
  - intros [m [H _]]. discriminate H.
  - intros [m [H [_ [Hs _]]]]. vm_compute in H. inversion H; subst m.
    vm_compute in Hs. discriminate Hs.
Qed.

(** C7 (as amended).  For every [Mount] call the method itself returns no
    error, and the reply holds the answer of the kernel mount primitive as it
    is: [nil] when the mount succeeded, the kernel's error, unwrapped, when it
    failed.  The only external call is that one mount. *)
Theorem Mount_error_verbatim (k : Kernel) (a : MountArgs) (w : World) :
  let ev := EvMount (Source a) (Target a) (Filesystem a) (Mountflags a) (Data a) in
  fst (Mount k a w) = (sys_err k ev w, None) /\
  trace (snd (Mount k a w)) = (trace w ++ [ev])%list.
Proof.
  rewrite Mount_eq. split; reflexivity.
Qed.

(** ** Mkdir *)

Lemma land_511_small (m : Z) : 0 <= m <= 511 -> Z.land m 511 = m.
Proof.
  intros H. change 511 with (Z.ones 9).
  rewrite Z.land_ones by lia. apply Z.mod_small. lia.
Qed.

Lemma land_small_pow2 (p n : Z) :
  0 <= n -> 0 <= p < 2 ^ n -> Z.land p (2 ^ n) = 0.
Proof.
  intros Hn Hp. apply Z.bits_inj'. intros m Hm.
  rewrite Z.land_spec, Z.bits_0, Z.pow2_bits_eqb by lia.
  destruct (Z.eqb_spec n m) as [->|Hne].
  - rewrite andb_true_r.
    destruct (Z.eq_dec p 0) as [->|Hp0]; [apply Z.bits_0|].
    apply Z.bits_above_log2; [lia|].
    apply Z.log2_lt_pow2; lia.
  - apply andb_false_r.
Qed.

(** A mode made of permission bits only is passed to the kernel unchanged. *)
Lemma syscallMode_perm (p : Z) : 0 <= p <= 511 -> syscallMode p = p.
Proof.
  intros H. unfold syscallMode, ModeSetuid, ModeSetgid, ModeSticky.
  rewrite !Z.shiftl_1_l.
  rewrite !land_small_pow2 by lia. cbn. apply land_511_small, H.
Qed.

(** [Mkdir] step by step: the mask is zeroed, the directory is created, the
    mask is put back. *)
Lemma Mkdir_eq (k : Kernel) (a : MkdirArgs) (w : World) :
  Mkdir k a w =
  let w1 := snd (syscall_Umask 0 w) in
  let (err, w2) := os_Mkdir k (Path a) (Perm a) w1 in
  (err, snd (syscall_Umask (umask w) w2)).
Proof.
  unfold Mkdir, os_Mkdir, sys. go. answer; reflexivity.
Qed.

(** With an empty mask, a mode of permission bits is the mode created. *)
Lemma mkdir_mode_exact (p : Z) :
  0 <= p <= 511 -> mkdir_mode (syscallMode p) 0 = p.
Proof.
  intros H. unfold mkdir_mode. rewrite syscallMode_perm by exact H.
  change (Z.lnot 0) with (-1). rewrite Z.land_m1_r.
  change 1023 with (Z.ones 10). rewrite Z.land_ones by lia.
  apply Z.mod_small. lia.
Qed.

(** C6.  For every [Mkdir] call, in a world whose creation mask is a mask
    (nine permission bits): the calls are [umask(0)], the [mkdir], and
    [umask] of the mask found; the mask in force when the directory is
    created is 0, so no bit of the requested mode is masked away, and a
    requested mode of permission bits is exactly the mode of the directory
    when the creation succeeds (when it fails no directory is recorded); in
    both cases the mask after the call is the mask before it. *)
Theorem Mkdir_exact_mode_and_mask (k : Kernel) (a : MkdirArgs) (w : World) :
  0 <= umask w <= 511 ->
  let r := Mkdir k a w in
  trace (snd r) =
    (trace w ++ [EvUmask 0; EvMkdir (Path a) (Perm a); EvUmask (umask w)])%list /\
  umask (snd (syscall_Umask 0 w)) = 0 /\
  fst r = sys_err k (EvMkdir (Path a) (Perm a)) (snd (syscall_Umask 0 w)) /\
  dirs (snd r) =
    match fst r with
    | None => (Path a, mkdir_mode (syscallMode (Perm a)) 0) :: dirs w
    | Some _ => dirs w
    end /\
  (0 <= Perm a <= 511 -> mkdir_mode (syscallMode (Perm a)) 0 = Perm a) /\
  umask (snd r) = umask w.
Proof.
  intros Hm r. subst r. rewrite Mkdir_eq.
  unfold os_Mkdir, sys, syscall_Umask. cbn.
  destruct (sys_err k (EvMkdir (Path a) (Perm a)) _) eqn:E; cbn;
    rewrite <- ?app_assoc; cbn;
    repeat split; auto using land_511_small, mkdir_mode_exact.
Qed.

(** The scenario of the specification: mode 0755 under mask 022. *)
Lemma Mkdir_exact_mode_and_mask_witness :
  let r := Mkdir kernel_ok (mkMkdirArgs "/new/dir" 493) world_user in
  umask world_user = 18 /\
  dirs (snd r) = [("/new/dir", 493)] /\
  umask (snd r) = 18.
Proof.
  assert (H1 : 0 <= umask world_user <= 511) by (cbn; lia).
  destruct (Mkdir_exact_mode_and_mask kernel_ok (mkMkdirArgs "/new/dir" 493)
              world_user H1) as [_ [_ [_ [Hd [_ Hu]]]]].
  split; [reflexivity|]. split; [exact Hd | exact Hu].
Defined.

(** ** LoopDevice *)

(** *** What the primitives leave untouched *)

Lemma Setfsuid_frame (k : Kernel) (u : Z) (w : World) :
  let w' := snd (syscall_Setfsuid k Serving u w) in
  trace w' = (trace w ++ [EvSetfsuid u])%list /\
  uid w' = uid w /\ gid w' = gid w /\ fsgid w' = fsgid w /\
  diskGID w' = diskGID w.
Proof.
  unfold syscall_Setfsuid. cbn.
  destruct (cap_setid k w || (u =? uid w) || (u =? euid w) || (u =? suid w)
            || (u =? fsuid w)); cbn; auto.
Qed.

Lemma Setfsgid_frame (k : Kernel) (g : Z) (w : World) :
  let w' := snd (syscall_Setfsgid k Serving g w) in
  trace w' = (trace w ++ [EvSetfsgid g])%list /\
  uid w' = uid w /\ gid w' = gid w /\ fsuid w' = fsuid w /\
  diskGID w' = diskGID w.
Proof.
  unfold syscall_Setfsgid. cbn.
  destruct (cap_setid k w || (g =? gid w) || (g =? egid w) || (g =? sgid w)
            || (g =? fsgid w)); cbn; auto.
Qed.

(** Setting the filesystem id to the real id is always granted. *)
Lemma Setfsuid_real (k : Kernel) (w : World) :
  fsuid (snd (syscall_Setfsuid k Serving (uid w) w)) = uid w.
Proof.
  unfold syscall_Setfsuid. cbn.
  rewrite Z.eqb_refl, orb_true_r. reflexivity.
Qed.

Lemma Setfsgid_real (k : Kernel) (w : World) :
  fsgid (snd (syscall_Setfsgid k Serving (gid w) w)) = gid w.
Proof.
  unfold syscall_Setfsgid. cbn.
  rewrite Z.eqb_refl, orb_true_r. reflexivity.
Qed.

Lemma after_resolution_frame (k : Kernel) (w : World) :
  let w' := after_resolution k w in
  uid w' = uid w /\ gid w' = gid w /\ fsuid w' = fsuid w /\ fsgid w' = fsgid w.
Proof.
  unfold after_resolution. destruct (diskGID w =? -1); cbn; auto.
Qed.

Lemma escalated_frame (k : Kernel) (w : World) :
  let w' := escalated k w in
  uid w' = uid w /\ gid w' = gid w /\ diskGID w' = diskGID w /\
  trace w' =
    (trace w ++ [EvLockOSThread; EvSetfsuid 0; EvSetfsgid (diskGID w)])%list.
Proof.
  unfold escalated. cbn zeta.
  set (w0 := snd (runtime_LockOSThread w)).
  destruct (Setfsuid_frame k 0 w0) as (Ht1 & Hu1 & Hg1 & _ & Hd1).
  destruct (Setfsgid_frame k (diskGID (snd (syscall_Setfsuid k Serving 0 w0)))
              (snd (syscall_Setfsuid k Serving 0 w0)))
    as (Ht2 & Hu2 & Hg2 & _ & Hd2).
  cbn zeta in *. rewrite Hu2, Hg2, Hd2, Ht2, Hu1, Hg1, Hd1, Ht1.
  subst w0. cbn. rewrite <- !app_assoc. auto.
Qed.

Lemma restored_spec (k : Kernel) (w : World) :
  let w' := restored k (uid w) (gid w) w in
  fsuid w' = uid w /\ fsgid w' = gid w /\ diskGID w' = diskGID w /\
  uid w' = uid w /\ gid w' = gid w /\
  trace w' =
    (trace w ++ [EvSetfsgid (gid w); EvSetfsuid (uid w); EvUnlockOSThread])%list.
Proof.
  unfold restored, runtime_UnlockOSThread, log. cbn.
  set (w1 := snd (syscall_Setfsgid k Serving (gid w) w)).
  assert (Hg : fsgid w1 = gid w) by apply Setfsgid_real.
  destruct (Setfsgid_frame k (gid w) w) as (Ht1 & Hu1 & Hg1 & _ & Hd1).
  fold w1 in Ht1, Hu1, Hg1, Hd1. cbn zeta in *.
  destruct (Setfsuid_frame k (uid w) w1) as (Ht2 & Hu2 & Hg2 & Hf2 & Hd2).
  cbn zeta in *.
  assert (Hu : fsuid (snd (syscall_Setfsuid k Serving (uid w) w1)) = uid w).
  { rewrite <- Hu1 at 1. rewrite Setfsuid_real. exact Hu1. }
  rewrite Hu, Hf2, Hg, Hd2, Hd1, Hu2, Hu1, Hg2, Hg1, Ht2, Ht1.
  rewrite <- !app_assoc. cbn. auto 10.
Qed.

(** *** The method, block by block *)

(** The image block defers nothing. *)
Lemma LoopDevice_image_eq (k : Kernel) (a : LoopArgs) (reply : Z) (w : World) :
  LoopDevice_image k a reply [] w =
  if strings_HasPrefix (Image a) fd_prefix then
    match strconv_ParseUint (strings_TrimPrefix (Image a) fd_prefix) 10 32 with
    | inr err =>
        (Return (reply,
                 Errorf "failed to convert image file descriptor: "
                   (NumError_Error "ParseUint"
                      (strings_TrimPrefix (Image a) fd_prefix) err)), [], w)
    | inl fd => (Next (mkFile fd ""), [], snd (log (EvNewFile fd) w))
    end
  else
    match open_result k (Image a) (Mode a) 384 w with
    | inl fd => (Next (mkFile fd (Image a)), [],
                 snd (log (EvOpenFile (Image a) (Mode a) 384) w))
    | inr msg => (Return (reply, Errorf "could not open image file: " msg), [],
                  snd (log (EvOpenFile (Image a) (Mode a) 384) w))
    end.
Proof.
  unfold LoopDevice_image, os_OpenFile, os_NewFile. go.
  destruct (strings_HasPrefix (Image a) fd_prefix); cbn.
  - destruct (strconv_ParseUint _ 10 32); reflexivity.
  - answer; reflexivity.
Qed.

Lemma LoopDevice_diskGID_eq (k : Kernel) (ds : list (M unit)) (w : World) :
  LoopDevice_diskGID k ds w = (Next tt, ds, after_resolution k w).
Proof.
  unfold LoopDevice_diskGID, after_resolution, user_GetGrNam, read_diskGID,
    write_diskGID.
  go. destruct (diskGID w =? -1); cbn; [|reflexivity].
  answer; reflexivity.
Qed.

Lemma LoopDevice_attach_eq (k : Kernel) (a : LoopArgs) (reply : Z)
    (dev : Device) (image : File) (w : World) :
  func (LoopDevice_attach k a reply dev image) w =
  let w2 := escalated k w in
  (attach_outcome reply (attach k dev image (Mode a) w2),
   restored k (uid w2) (gid w2)
     (snd (loopdev_AttachFromFile k dev image (Mode a) w2))).
Proof.
  unfold LoopDevice_attach, attach_outcome, escalated, restored,
    loopdev_AttachFromFile, read_diskGID, os_Getuid, os_Getgid.
  go.
  destruct (syscall_Setfsuid k Serving 0 (snd (runtime_LockOSThread w)))
    as [[] w1] eqn:E1.
  unfold runtime_LockOSThread, log in *. cbn in *. rewrite E1. cbn.
  destruct (syscall_Setfsgid k Serving (diskGID w1) w1) as [[] w2] eqn:E2. cbn.
  destruct (attach k dev image (Mode a) w2) as [number [e|]]; cbn; reflexivity.
Qed.

Lemma LoopDevice_eq (k : Kernel) (a : LoopArgs) (reply : Z) (w : World) :
  LoopDevice k a reply w =
  match LoopDevice_image k a reply [] w with
  | (Next image, _, w1) =>
      func (LoopDevice_attach k a reply
              (mkDevice (MaxDevices a) (LShared a) (LInfo a)) image)
           (after_resolution k w1)
  | (Return r, _, w1) => (r, w1)
  end.
Proof.
  unfold LoopDevice, func at 1, bindB at 1 2.
  rewrite LoopDevice_image_eq.
  destruct (strings_HasPrefix (Image a) fd_prefix).
  - destruct (strconv_ParseUint _ 10 32); [|reflexivity].
    rewrite LoopDevice_diskGID_eq. reflexivity.
  - destruct (open_result k (Image a) (Mode a) 384 w); [|reflexivity].
    rewrite LoopDevice_diskGID_eq. reflexivity.
Qed.

(** *** The escalation bracket *)

(** C1 (as stated, refuted).  The server is a set-user-ID-root program
    started by user 1000: real user id 1000, effective user id 0, and a
    filesystem user id of 0 on the thread that serves the call, as on every
    thread of such a process until it is set otherwise.  The attach of an
    image succeeds, and the call leaves the filesystem user id of the thread
    at 1000, the real user id, not at the 0 it found. *)
Lemma LoopDevice_identity_not_restored :
  let w := world_setuid in
  let r := LoopDevice kernel_ok (loop_args "/images/alpine.sif") 0 w in
  (uid w = 1000 /\ euid w = 0 /\ fsuid w = 0) /\
  fst r = (0, None) /\
  fsuid (snd r) = 1000 /\
  ~ fs_identity_preserved w (snd r).
Proof.
  cbv zeta. repeat split.
  intros [H _]. vm_compute in H. discriminate H.
Qed.

(** C1 (as amended).  For every [LoopDevice] call, whatever the attach
    answers: when the call gets past the image (the escalation is reached),
    the filesystem user and group id after the call are the real user and
    group id of the process, which is what the deferred calls install; when
    the call returns before that, they are what they were before the call. *)
Theorem LoopDevice_restores_real_identity
    (k : Kernel) (a : LoopArgs) (reply : Z) (w : World) :
  let w' := snd (LoopDevice k a reply w) in
  match LoopDevice_image k a reply [] w with
  | (Next _, _, _) => fsuid w' = uid w /\ fsgid w' = gid w
  | (Return _, _, _) => fsuid w' = fsuid w /\ fsgid w' = fsgid w
  end.
Proof.
  cbv zeta. rewrite LoopDevice_eq.
  assert (Himg : forall f ds w1,
             LoopDevice_image k a reply [] w = (f, ds, w1) ->
             uid w1 = uid w /\ gid w1 = gid w /\
             fsuid w1 = fsuid w /\ fsgid w1 = fsgid w).
  { intros f ds w1. rewrite LoopDevice_image_eq.
    destruct (strings_HasPrefix (Image a) fd_prefix).
    - destruct (strconv_ParseUint _ 10 32); intros H; inversion H; cbn; auto.
    - destruct (open_result k (Image a) (Mode a) 384 w);
        intros H; inversion H; cbn; auto. }
  destruct (LoopDevice_image k a reply [] w) as [[[image|r] ds] w1] eqn:E;
    destruct (Himg _ _ _ eq_refl) as (Hu & Hg & Hfu & Hfg); cbn.
  - rewrite LoopDevice_attach_eq. cbn zeta. cbn [snd].
    set (w2 := escalated k (after_resolution k w1)).
    set (w3 := snd (loopdev_AttachFromFile k _ image (Mode a) w2)).
    assert (H3 : uid w3 = uid w2 /\ gid w3 = gid w2) by (split; reflexivity).
    destruct H3 as [Hu3 Hg3]. rewrite <- Hu3, <- Hg3.
    destruct (restored_spec k w3) as (Hr1 & Hr2 & _). cbn zeta in *.
    rewrite Hr1, Hr2, Hu3, Hg3. subst w2.
    destruct (escalated_frame k (after_resolution k w1)) as (He1 & He2 & _).
    destruct (after_resolution_frame k w1) as (Ha1 & Ha2 & _).
    cbn zeta in *. rewrite He1, He2, Ha1, Ha2. auto.
  - auto.
Qed.

(** *** The image reference *)

Lemma HasPrefix_app (p s : string) : strings_HasPrefix (p ++ s) p = true.
Proof.
  unfold strings_HasPrefix. induction p as [|c p IH]; cbn.
  - destruct s; reflexivity.
  - destruct (ascii_dec c c); [exact IH | congruence].
Qed.

Lemma length_app (p s : string) :
  String.length (p ++ s) = (String.length p + String.length s)%nat.
Proof. induction p; cbn; congruence. Qed.

Lemma substring_all (s : string) : substring 0 (String.length s) s = s.
Proof. induction s; cbn; congruence. Qed.

Lemma substring_skip (p s : string) (m : nat) :
  substring (String.length p) m (p ++ s) = substring 0 m s.
Proof. induction p; cbn; auto. Qed.

Lemma TrimPrefix_app (p s : string) : strings_TrimPrefix (p ++ s) p = s.
Proof.
  unfold strings_TrimPrefix. rewrite HasPrefix_app, substring_skip, length_app.
  replace (String.length p + String.length s - String.length p)%nat
    with (String.length s) by lia.
  apply substring_all.
Qed.

Lemma digit_val_digit (c : ascii) :
  is_digit c = true ->
  digit_val (byte_of c) = Some (byte_of c - 48) /\ 0 <= byte_of c - 48 <= 9.
Proof.
  unfold is_digit, digit_val. intros H. rewrite H. split; [reflexivity|].
  apply andb_prop in H. lia.
Qed.

(** A byte that is not a decimal digit has no digit value below ten. *)
Lemma digit_val_other (c : ascii) :
  is_digit c = false ->
  match digit_val (byte_of c) with
  | Some d => 10 <= d
  | None => True
  end.
Proof.
  unfold is_digit, digit_val. intros H. rewrite H.
  destruct ((97 <=? lower (byte_of c)) && (lower (byte_of c) <=? 122)) eqn:E;
    [|exact I].
  apply andb_prop in E. lia.
Qed.

Lemma decimal_acc_mono (s : string) :
  all_digits s = true -> forall n, 0 <= n -> n <= decimal_acc n s.
Proof.
  induction s as [|c s IH]; cbn [decimal_acc all_digits]; intros H n Hn; [lia|].
  apply andb_prop in H. destruct H as [Hc Hs].
  destruct (digit_val_digit c Hc) as [_ Hd].
  specialize (IH Hs (10 * n + (byte_of c - 48))). lia.
Qed.

(** On digits, the loop computes the decimal value, or reports that it does
    not fit in 32 bits. *)
Lemma ParseUint_loop_digits (s : string) :
  all_digits s = true ->
  forall n, 0 <= n <= maxVal32 ->
  ParseUint_loop 10 cutoff10 maxVal32 s n =
  if decimal_acc n s <=? maxVal32 then inl (decimal_acc n s) else inr ErrRange.
Proof.
  induction s as [|c s IH]; intros H n Hn.
  - cbn [ParseUint_loop decimal_acc].
    destruct (Z.leb_spec n maxVal32); [reflexivity | lia].
  - cbn [all_digits] in H. apply andb_prop in H. destruct H as [Hc Hs].
    destruct (digit_val_digit c Hc) as [Hv Hd].
    cbn [ParseUint_loop decimal_acc]. rewrite Hv.
    unfold maxVal32, cutoff10 in *.
    change (2 ^ 64) with 18446744073709551616 in *.
    change (2 ^ 32) with 4294967296 in *.
    change ((18446744073709551616 - 1) / 10 + 1) with 1844674407370955162.
    destruct (Z.geb_spec (byte_of c - 48) 10); [lia|].
    destruct (Z.geb_spec n 1844674407370955162); [lia|].
    rewrite (Z.mod_small (n * 10)) by lia.
    rewrite (Z.mod_small (n * 10 + _)) by lia.
    destruct (Z.ltb_spec (n * 10 + (byte_of c - 48)) (n * 10)); [lia|].
    cbn [orb].
    replace (10 * n) with (n * 10) by lia.
    destruct (Z.gtb_spec (n * 10 + (byte_of c - 48)) (4294967296 - 1)).
    + pose proof (decimal_acc_mono s Hs (n * 10 + (byte_of c - 48))).
      destruct (Z.leb_spec (decimal_acc (n * 10 + (byte_of c - 48)) s)
                  (4294967296 - 1)); [lia | reflexivity].
    + apply IH; [exact Hs | lia].
Qed.

Lemma ParseUint_loop_other (s : string) :
  all_digits s = false ->
  forall n, exists e, ParseUint_loop 10 cutoff10 maxVal32 s n = inr e.
Proof.
  induction s as [|c s IH]; intros H n; [discriminate H|].
  cbn [all_digits] in H. cbn [ParseUint_loop].
  destruct (is_digit c) eqn:Hc.
  - destruct (digit_val_digit c Hc) as [Hv Hd]. rewrite Hv.
    destruct (byte_of c - 48 >=? 10); [eauto|].
    destruct (n >=? cutoff10); [eauto|].
    match goal with |- context [if ?b then _ else _] => destruct b end;
      [eauto|].
    apply IH. exact H.
  - pose proof (digit_val_other c Hc) as Ho.
    destruct (digit_val (byte_of c)) as [d|]; [|eauto].
    destruct (Z.geb_spec d 10); [eauto | lia].
Qed.

(** [strconv.ParseUint s 10 32] on a decimal numeral that fits. *)
Lemma ParseUint_decimal (s : string) :
  is_decimal s = true -> decimal_value s < 2 ^ 32 ->
  strconv_ParseUint s 10 32 = inl (decimal_value s).
Proof.
  intros Hs Hv. destruct s as [|c s]; [discriminate Hs|].
  unfold strconv_ParseUint, decimal_value in *. cbn [is_decimal] in Hs.
  fold cutoff10. fold maxVal32.
  rewrite ParseUint_loop_digits by (auto; unfold maxVal32; lia).
  unfold maxVal32.
  destruct (Z.leb_spec (decimal_acc 0 (String c s)) (2 ^ 32 - 1));
    [reflexivity | lia].
Qed.

(** ... and on anything else. *)
Lemma ParseUint_rejects (s : string) :
  is_decimal s = false \/ 2 ^ 32 <= decimal_value s ->
  exists e, strconv_ParseUint s 10 32 = inr e.
Proof.
  intros H. destruct s as [|c s]; [cbn; eauto|].
  unfold strconv_ParseUint, decimal_value in *. cbn [is_decimal] in H.
  fold cutoff10. fold maxVal32.
  destruct (all_digits (String c s)) eqn:Hd.
  - destruct H as [H|H]; [discriminate H|].
    rewrite ParseUint_loop_digits by (auto; unfold maxVal32; lia).
    unfold maxVal32.
    destruct (Z.leb_spec (decimal_acc 0 (String c s)) (2 ^ 32 - 1));
      [lia | eauto].
  - apply ParseUint_loop_other. exact Hd.
Qed.

Lemma new_events_app (w w' : World) (l : list Event) :
  trace w' = (trace w ++ l)%list -> new_events w w' = l.
Proof.
  unfold new_events. intros ->.
  rewrite skipn_app, skipn_all, Nat.sub_diag. reflexivity.
Qed.

(** The calls of a [LoopDevice] that got its image: the calls of the image
    block, the group lookup if the cache is empty, then the bracket around
    the attach. *)
Lemma LoopDevice_trace (k : Kernel) (a : LoopArgs) (reply : Z) (w : World)
    (image : File) (ds : list (M unit)) (w1 : World) :
  LoopDevice_image k a reply [] w = (Next image, ds, w1) ->
  trace (snd (LoopDevice k a reply w)) =
  (trace w1 ++
   (if Z.eqb (diskGID w) (-1) then [EvGetGrNam "disk"] else []) ++
   [EvLockOSThread; EvSetfsuid 0;
    EvSetfsgid (diskGID (after_resolution k w1));
    EvAttachFromFile (mkDevice (MaxDevices a) (LShared a) (LInfo a)) image (Mode a);
    EvSetfsgid (gid w); EvSetfsuid (uid w); EvUnlockOSThread])%list.
Proof.
  intros E. rewrite LoopDevice_eq, E, LoopDevice_attach_eq. cbn zeta. cbn [snd].
  assert (H1 : uid w1 = uid w /\ gid w1 = gid w /\ diskGID w1 = diskGID w).
  { revert E. rewrite LoopDevice_image_eq.
    destruct (strings_HasPrefix (Image a) fd_prefix).
    - destruct (strconv_ParseUint _ 10 32); intros H; inversion H; cbn; auto.
    - destruct (open_result k (Image a) (Mode a) 384 w);
        intros H; inversion H; cbn; auto. }
  destruct H1 as (Hu1 & Hg1 & Hd1).
  set (w2 := after_resolution k w1).
  destruct (after_resolution_frame k w1) as (Hu2 & Hg2 & _). fold w2 in Hu2, Hg2.
  destruct (escalated_frame k w2) as (Hu3 & Hg3 & _ & Ht3). cbn zeta in *.
  set (w4 := snd (loopdev_AttachFromFile k _ image (Mode a) (escalated k w2))).
  assert (H4 : uid w4 = uid w /\ gid w4 = gid w) by (subst w4; cbn; split; congruence).
  destruct H4 as [Hu4 Hg4].
  replace (uid (escalated k w2)) with (uid w4) by congruence.
  replace (gid (escalated k w2)) with (gid w4) by congruence.
  destruct (restored_spec k w4) as (_ & _ & _ & _ & _ & Ht). cbn zeta in Ht.
  rewrite Ht, Hu4, Hg4. subst w4. cbn [snd loopdev_AttachFromFile trace set_trace].
  rewrite Ht3. subst w2. unfold after_resolution. rewrite Hd1.
  destruct (diskGID w =? -1); cbn; rewrite <- ?app_assoc; reflexivity.
Qed.

(** C4 (as stated, refuted).  The reference is the reserved prefix followed
    by the decimal integer 4294967296.  The call does not adopt descriptor
    4294967296: it returns a request error and makes no external call. *)
Lemma LoopDevice_large_descriptor_rejected :
  let a := loop_args "/proc/self/fd/4294967296" in
  let r := LoopDevice kernel_ok a 0 world_user in
  Image a = fd_prefix ++ "4294967296" /\
  is_decimal "4294967296" = true /\
  decimal_value "4294967296" = 4294967296 /\
  (exists msg, fst r = (0, Some msg)) /\
  snd r = world_user /\
  ~ adopts_descriptor 4294967296 world_user (snd r).
Proof.
  cbv zeta. repeat split.
  - eexists. vm_compute. reflexivity.
  - intros [H _]. vm_compute in H. exact H.
Qed.

(** C4 (as amended).  For every [LoopDevice] call:
    - a reference that is the reserved prefix followed by a decimal numeral
      whose value N is below 2^32 makes the call wrap descriptor N, attach
      that descriptor, and open no path;
    - a reference that is the reserved prefix followed by anything else (a
      suffix that is empty or has a character that is not a digit, or a
      numeral of value 2^32 or more) makes the call return the request error
      with the world untouched, so before any attach;
    - a reference that does not start with the prefix is opened as a path
      with the requested mode, as the first call made; no descriptor is
      wrapped, and the file opened is the image attached. *)
Theorem LoopDevice_image_reference
    (k : Kernel) (a : LoopArgs) (reply : Z) (w : World) :
  let r := LoopDevice k a reply w in
  (forall ds, Image a = fd_prefix ++ ds ->
     is_decimal ds = true -> decimal_value ds < 2 ^ 32 ->
     adopts_descriptor (decimal_value ds) w (snd r)) /\
  (forall ds, Image a = fd_prefix ++ ds ->
     is_decimal ds = false \/ 2 ^ 32 <= decimal_value ds ->
     exists msg,
       r = (reply, Some ("failed to convert image file descriptor: " ++ msg), w)) /\
  (strings_HasPrefix (Image a) fd_prefix = false ->
     exists rest,
       new_events w (snd r) = EvOpenFile (Image a) (Mode a) 384 :: rest /\
       (forall N, ~ In (EvNewFile N) rest) /\
       (forall fd, open_result k (Image a) (Mode a) 384 w = inl fd ->
          In (EvAttachFromFile (mkDevice (MaxDevices a) (LShared a) (LInfo a))
                               (mkFile fd (Image a)) (Mode a)) rest)).
Proof.
  cbv zeta. split; [|split].
  - intros ds Hi Hd Hv.
    assert (E : LoopDevice_image k a reply [] w =
                (Next (mkFile (decimal_value ds) ""), [],
                 snd (log (EvNewFile (decimal_value ds)) w))).
    { rewrite LoopDevice_image_eq, Hi, HasPrefix_app, TrimPrefix_app.
      rewrite ParseUint_decimal by assumption. reflexivity. }
    pose proof (LoopDevice_trace k a reply w _ _ _ E) as Ht.
    cbn [snd log trace set_trace] in Ht. rewrite <- app_assoc in Ht.
    apply new_events_app in Ht. unfold adopts_descriptor. rewrite Ht.
    split; [left; reflexivity|]. split.
    + exists (mkDevice (MaxDevices a) (LShared a) (LInfo a)), (Mode a).
      destruct (diskGID w =? -1); cbn; auto 10.
    + intros p f m H.
      destruct (diskGID w =? -1); cbn in H;
        repeat (destruct H as [H|H]; [discriminate H|]); exact H.
  - intros ds Hi Hd.
    destruct (ParseUint_rejects ds Hd) as [e He].
    rewrite LoopDevice_eq, LoopDevice_image_eq, Hi, HasPrefix_app,
      TrimPrefix_app, He.
    eexists. reflexivity.
  - intros Hp.
    destruct (open_result k (Image a) (Mode a) 384 w) as [fd|msg] eqn:Eo.
    + assert (E : LoopDevice_image k a reply [] w =
                  (Next (mkFile fd (Image a)), [],
                   snd (log (EvOpenFile (Image a) (Mode a) 384) w))).
      { rewrite LoopDevice_image_eq, Hp, Eo. reflexivity. }
      pose proof (LoopDevice_trace k a reply w _ _ _ E) as Ht.
      cbn [snd log trace set_trace] in Ht. rewrite <- app_assoc in Ht.
      apply new_events_app in Ht. rewrite Ht.
      eexists. split; [reflexivity|]. split.
      * intros N H.
        destruct (diskGID w =? -1); cbn in H;
          repeat (destruct H as [H|H]; [discriminate H|]); exact H.
      * intros fd' Hfd. inversion Hfd; subst fd'.
        destruct (diskGID w =? -1); cbn; auto 10.
    + rewrite LoopDevice_eq, LoopDevice_image_eq, Hp, Eo. cbn [snd log].
      exists []. split; [|split].
      * apply new_events_app. reflexivity.
      * intros N H. exact H.
      * intros fd Hfd. discriminate Hfd.
Qed.

(** The scenarios of the specification: descriptor 7 is adopted, the suffix
    [abc] is a request error; and an image given by its path is opened. *)
Lemma LoopDevice_image_reference_witness :
  adopts_descriptor 7 world_user
    (snd (LoopDevice kernel_ok (loop_args "/proc/self/fd/7") 0 world_user)) /\
  (exists msg,
     LoopDevice kernel_ok (loop_args "/proc/self/fd/abc") 0 world_user =
     (0, Some ("failed to convert image file descriptor: " ++ msg), world_user)) /\
  (exists rest,
     new_events world_user
       (snd (LoopDevice kernel_ok (loop_args "/images/alpine.sif") 0 world_user))
     = EvOpenFile "/images/alpine.sif" 2 384 :: rest).
Proof.
  split; [|split].
  - destruct (LoopDevice_image_reference kernel_ok
                (loop_args "/proc/self/fd/7") 0 world_user) as [H _].
    apply (H "7"); [reflexivity | reflexivity | reflexivity].
  - destruct (LoopDevice_image_reference kernel_ok
                (loop_args "/proc/self/fd/abc") 0 world_user) as [_ [H _]].
    apply (H "abc"); [reflexivity | left; reflexivity].
  - destruct (LoopDevice_image_reference kernel_ok
                (loop_args "/images/alpine.sif") 0 world_user) as [_ [_ H]].
    destruct (H eq_refl) as [rest [Hr _]]. exists rest. exact Hr.
Defined.

(** *** The cached disk group *)

Lemma lookups_app (l1 l2 : list Event) :
  lookups (l1 ++ l2) = (lookups l1 + lookups l2)%nat.
Proof.
  induction l1 as [|e l1 IH]; [reflexivity|].
  destruct e; cbn; rewrite ?IH; reflexivity.
Qed.

(** The image block makes one call, which is no lookup, and does not write
    the cache. *)
Lemma LoopDevice_image_frame (k : Kernel) (a : LoopArgs) (reply : Z)
    (w : World) (f : Flow (Z * error) File) (ds : list (M unit)) (w1 : World) :
  LoopDevice_image k a reply [] w = (f, ds, w1) ->
  diskGID w1 = diskGID w /\
  exists l, trace w1 = (trace w ++ l)%list /\ lookups l = 0%nat /\
            forall g, ~ In (EvSetfsgid g) l.
Proof.
  rewrite LoopDevice_image_eq.
  destruct (strings_HasPrefix (Image a) fd_prefix).
  - destruct (strconv_ParseUint _ 10 32); intros H; inversion H; cbn;
      (split; [reflexivity|]).
    + exists [EvNewFile z]. repeat split. intros g [Hg|[]]. discriminate Hg.
    + exists []. rewrite app_nil_r. repeat split. intros g [].
  - destruct (open_result k (Image a) (Mode a) 384 w);
      intros H; inversion H; cbn; (split; [reflexivity|]);
      exists [EvOpenFile (Image a) (Mode a) 384]; repeat split;
      intros g [Hg|[]]; discriminate Hg.
Qed.

(** The cache after a call: resolved if the call got its image, else as
    before. *)
Lemma LoopDevice_cache (k : Kernel) (a : LoopArgs) (reply : Z) (w : World) :
  diskGID (snd (LoopDevice k a reply w)) =
  match LoopDevice_image k a reply [] w with
  | (Next _, _, w1) => diskGID (after_resolution k w1)
  | (Return _, _, _) => diskGID w
  end.
Proof.
  rewrite LoopDevice_eq.
  destruct (LoopDevice_image k a reply [] w) as [[[image|r] ds] w1] eqn:E;
    destruct (LoopDevice_image_frame _ _ _ _ _ _ _ E) as [Hd _]; cbn [snd];
    [|exact Hd].
  rewrite LoopDevice_attach_eq. cbn zeta. cbn [snd].
  set (w2 := escalated k (after_resolution k w1)).
  set (w3 := snd (loopdev_AttachFromFile k _ image (Mode a) w2)).
  change (uid w2) with (uid w3). change (gid w2) with (gid w3).
  destruct (restored_spec k w3) as (_ & _ & Hr & _). cbn zeta in Hr.
  rewrite Hr. subst w3 w2. cbn.
  now destruct (escalated_frame k (after_resolution k w1)) as (_ & _ & He & _).
Qed.

(** C5.  In a process that has not resolved the disk group yet, let a first
    [LoopDevice] call get past the image and so reach the lookup.  That call
    makes exactly one lookup and caches its answer: the id of group "disk"
    when the lookup succeeds, 0 when it fails.  Any later [LoopDevice] call,
    in any world that still holds this cache and under any environment, in
    particular one whose group database answers differently, makes no lookup,
    leaves the cache as it is, and, when it reaches the escalation, passes
    the cached value to [setfsgid]. *)
Theorem diskGID_resolved_once
    (k1 k2 : Kernel) (a1 a2 : LoopArgs) (r1 r2 : Z) (w : World)
    (image : File) (ds : list (M unit)) (w_img : World) :
  diskGID w = -1 ->
  LoopDevice_image k1 a1 r1 [] w = (Next image, ds, w_img) ->
  let w1 := snd (LoopDevice k1 a1 r1 w) in
  diskGID w1 =
    match getgrnam k1 "disk" w_img with
    | Some g => g mod 2 ^ 32
    | None => 0
    end /\
  lookups (new_events w w1) = 1%nat /\
  forall w1', diskGID w1' = diskGID w1 ->
    let w2 := snd (LoopDevice k2 a2 r2 w1') in
    diskGID w2 = diskGID w1 /\
    lookups (new_events w1' w2) = 0%nat /\
    forall image2 ds2 w_img2,
      LoopDevice_image k2 a2 r2 [] w1' = (Next image2, ds2, w_img2) ->
      In (EvSetfsgid (diskGID w1)) (new_events w1' w2).
Proof.
  intros Hw E. cbv zeta.
  destruct (LoopDevice_image_frame _ _ _ _ _ _ _ E) as (Hd & l & Hl & Hl0 & _).
  assert (Hc : diskGID (snd (LoopDevice k1 a1 r1 w)) =
               match getgrnam k1 "disk" w_img with
               | Some g => g mod 2 ^ 32
               | None => 0
               end).
  { rewrite LoopDevice_cache, E. unfold after_resolution.
    rewrite Hd, Hw. reflexivity. }
  assert (Hpos : 0 <= diskGID (snd (LoopDevice k1 a1 r1 w))).
  { rewrite Hc. destruct (getgrnam k1 "disk" w_img); [|lia].
    apply Z.mod_pos_bound. lia. }
  split; [exact Hc|]. split.
  - pose proof (LoopDevice_trace k1 a1 r1 w _ _ _ E) as Ht.
    rewrite Hl, Hw, <- app_assoc in Ht. apply new_events_app in Ht.
    rewrite Ht, lookups_app, Hl0. reflexivity.
  - intros w1' Hw1'.
    assert (Hne : (diskGID w1' =? -1) = false) by (apply Z.eqb_neq; lia).
    destruct (LoopDevice_image k2 a2 r2 [] w1') as [[[image2|r] ds2] w_img2] eqn:E2;
      destruct (LoopDevice_image_frame _ _ _ _ _ _ _ E2)
        as (Hd2 & l2 & Hl2 & Hl20 & Hl2g).
    + assert (Hres : after_resolution k2 w_img2 = w_img2).
      { unfold after_resolution. rewrite Hd2, Hne. reflexivity. }
      pose proof (LoopDevice_trace k2 a2 r2 w1' _ _ _ E2) as Ht.
      rewrite Hl2, Hne, Hres, Hd2, <- app_assoc in Ht.
      apply new_events_app in Ht.
      split; [|split].
      * rewrite LoopDevice_cache, E2, Hres, Hd2. exact Hw1'.
      * rewrite Ht, lookups_app, Hl20. reflexivity.
      * intros image3 ds3 w_img3 _. rewrite Ht, <- Hw1'.
        apply in_or_app. right. cbn. auto.
    + split; [|split].
      * rewrite LoopDevice_cache, E2. exact Hw1'.
      * rewrite LoopDevice_eq, E2. cbn [snd].
        apply new_events_app in Hl2. rewrite Hl2. exact Hl20.
      * intros image3 ds3 w_img3 H. discriminate H.
Qed.

(** Two consecutive attaches; between them group "disk" is renumbered from 6
    to 99.  Both calls use 6. *)
Lemma diskGID_resolved_once_witness :
  let w1 := snd (LoopDevice kernel_ok (loop_args "/images/a.sif") 0 world_user) in
  let w2 := snd (LoopDevice kernel_regrouped (loop_args "/images/b.sif") 0 w1) in
  diskGID world_user = -1 /\
  getgrnam kernel_regrouped "disk" w1 = Some 99 /\
  diskGID w1 = 6 /\ diskGID w2 = 6 /\
  lookups (new_events world_user w1) = 1%nat /\
  lookups (new_events w1 w2) = 0%nat /\
  In (EvSetfsgid 6) (new_events w1 w2).
Proof.
  cbv zeta.
  destruct (diskGID_resolved_once kernel_ok kernel_regrouped
              (loop_args "/images/a.sif") (loop_args "/images/b.sif") 0 0
              world_user (mkFile 3 "/images/a.sif") []
              (snd (log (EvOpenFile "/images/a.sif" 2 384) world_user))
              eq_refl eq_refl) as (H1 & H2 & H3).
  destruct (H3 _ eq_refl) as (H4 & H5 & H6).
  split; [reflexivity|]. split; [reflexivity|].
  split; [exact H1|]. split; [exact H4|]. split; [exact H2|].
  split; [exact H5|].
  exact (H6 (mkFile 3 "/images/b.sif") []
            (snd (log (EvOpenFile "/images/b.sif" 2 384)
                    (snd (LoopDevice kernel_ok (loop_args "/images/a.sif") 0
                            world_user))))
            eq_refl).
Defined.

(** ** Decrypt *)

Lemma Decrypt_enter_host_eq (k : Kernel) (a : CryptArgs) (reply : string)
    (w : World) :
  Decrypt_enter_host k a reply [] w =
  if MasterPid a >? 0 then
    let w1 := snd (runtime_LockOSThread w) in
    match sys_err k (EvEnter (MasterPid a) "ipc") w1 with
    | None => (Next tt, [runtime_UnlockOSThread],
               snd (namespaces_Enter k (MasterPid a) "ipc" w1))
    | Some e => (Return (reply, Errorf "while joining host IPC namespace: " e),
                 [runtime_UnlockOSThread],
                 snd (namespaces_Enter k (MasterPid a) "ipc" w1))
    end
  else (Next tt, [], w).
Proof.
  unfold Decrypt_enter_host, namespaces_Enter, sys. go.
  destruct (MasterPid a >? 0); [|reflexivity].
  cbn. answer; reflexivity.
Qed.

(** [Decrypt] from the unlock attempt on: [ds] is what was deferred before
    it, [w1] the world in which the unlock is attempted. *)
Lemma Decrypt_eq (k : Kernel) (a : CryptArgs) (reply : string) (w : World) :
  Decrypt k a reply w =
  match Decrypt_enter_host k a reply [] w with
  | (Return r, ds, w1) => (r, run_deferred ds w1)
  | (Next _, ds, w1) =>
      let (co, w2) := cryptDev_Open k (Key a) (Loopdev a) w1 in
      if MasterPid a >? 0 then
        let (e, w3) := namespaces_Enter k (getpid k) "ipc" w2 in
        match e with
        | Some e =>
            (reply, Errorf "while joining container IPC namespace: " e,
             run_deferred ds w3)
        | None => ("/dev/mapper/" ++ fst co, snd co, run_deferred ds w3)
        end
      else ("/dev/mapper/" ++ fst co, snd co, run_deferred ds w2)
  end.
Proof.
  unfold Decrypt, func at 1, bindB at 1.
  destruct (Decrypt_enter_host k a reply [] w) as [[[[]|r] ds] w1];
    [|reflexivity].
  unfold cryptDev_Open, namespaces_Enter, sys. go.
  destruct (crypt_open k (Key a) (Loopdev a) w1) as [name err]. cbn.
  destruct (MasterPid a >? 0); cbn; [|reflexivity].
  answer; reflexivity.
Qed.

(** C3.  For every [Decrypt] call:
    - with a master pid of zero or less, the only external call is the unlock
      attempt, and the thread stays in the IPC namespace it was in;
    - with a master pid above zero and a successful join into the namespace
      of the master process, the calls are: lock the thread, join the
      master's namespace, attempt the unlock, join the namespace of the
      process itself, unlock the thread.  This holds whatever the unlock
      attempt answers, an error or none.  When the kernel grants the second
      join the thread ends in the process's own IPC namespace; when it
      refuses, the call reports that. *)
Theorem Decrypt_ipc_namespace
    (k : Kernel) (a : CryptArgs) (reply : string) (w : World) :
  let r := Decrypt k a reply w in
  let w1 := snd (runtime_LockOSThread w) in
  let w2 := snd (namespaces_Enter k (MasterPid a) "ipc" w1) in
  let w3 := snd (cryptDev_Open k (Key a) (Loopdev a) w2) in
  (MasterPid a <= 0 ->
     new_events w (snd r) = [EvCryptOpen (Key a) (Loopdev a)] /\
     ipcns (snd r) = ipcns w) /\
  (MasterPid a > 0 ->
   sys_err k (EvEnter (MasterPid a) "ipc") w1 = None ->
     new_events w (snd r) =
       [EvLockOSThread; EvEnter (MasterPid a) "ipc";
        EvCryptOpen (Key a) (Loopdev a);
        EvEnter (getpid k) "ipc"; EvUnlockOSThread] /\
     match sys_err k (EvEnter (getpid k) "ipc") w3 with
     | None => ipcns (snd r) = ipcns_of k (getpid k)
     | Some e =>
         fst r = (reply, Some ("while joining container IPC namespace: " ++ e))
     end).
Proof.
  cbv zeta. rewrite Decrypt_eq, Decrypt_enter_host_eq. split.
  - intros Hm. destruct (Z.gtb_spec (MasterPid a) 0); [lia|].
    unfold cryptDev_Open.
    destruct (crypt_open k (Key a) (Loopdev a) w) as [name err]. cbn.
    split; [|reflexivity]. apply new_events_app. reflexivity.
  - intros Hm He. destruct (Z.gtb_spec (MasterPid a) 0); [|lia].
    cbv zeta. rewrite He.
    unfold cryptDev_Open, namespaces_Enter, sys. rewrite He. cbn.
    destruct (crypt_open k (Key a) (Loopdev a) _) as [name err]. cbn.
    destruct (Z.gtb_spec (MasterPid a) 0); [|lia].
    destruct (sys_err k (EvEnter (getpid k) "ipc") _) as [e|]; cbn;
      (split; [apply new_events_app; cbn; rewrite <- !app_assoc; reflexivity
              | reflexivity]).
Qed.

(** Without a master process the namespace is not touched; with one, the
    process is back in its namespace 2 after a successful and after a failed
    unlock. *)
Lemma Decrypt_ipc_namespace_witness :
  let direct := Decrypt kernel_ok (mkCryptArgs [1; 2; 3] "/dev/loop0" 0) "" world_user in
  let opened := Decrypt kernel_ok (mkCryptArgs [1; 2; 3] "/dev/loop0" 1) "" world_user in
  let refused := Decrypt kernel_locked (mkCryptArgs [1; 2; 3] "/dev/loop0" 1) "" world_user in
  new_events world_user (snd direct) = [EvCryptOpen [1; 2; 3] "/dev/loop0"] /\
  (snd (fst opened) = None /\ ipcns (snd opened) = 2) /\
  (snd (fst refused) <> None /\ ipcns (snd refused) = 2 /\
   new_events world_user (snd refused) =
     [EvLockOSThread; EvEnter 1 "ipc"; EvCryptOpen [1; 2; 3] "/dev/loop0";
      EvEnter 4242 "ipc"; EvUnlockOSThread]).
Proof.
  cbv zeta. split; [|split].
  - destruct (Decrypt_ipc_namespace kernel_ok
                (mkCryptArgs [1; 2; 3] "/dev/loop0" 0) "" world_user) as [H _].
    destruct H as [H _]; [cbn; lia | exact H].
  - destruct (Decrypt_ipc_namespace kernel_ok
                (mkCryptArgs [1; 2; 3] "/dev/loop0" 1) "" world_user) as [_ H].
    destruct H as [_ H]; [cbn; lia | reflexivity |].
    split; [reflexivity | exact H].
  - destruct (Decrypt_ipc_namespace kernel_locked
                (mkCryptArgs [1; 2; 3] "/dev/loop0" 1) "" world_user) as [_ H].
    destruct H as [Ht H]; [cbn; lia | reflexivity |].
    split; [discriminate|]. split; [exact H | exact Ht].
Defined.

(** C10 (as stated, refuted).  The call reaches the unlock attempt, which
    succeeds with device [crypt0]; the process then fails to re-join its own
    IPC namespace, and the call returns with the reply still empty. *)
Lemma Decrypt_reply_not_assigned :
  let a := mkCryptArgs [1; 2; 3] "/dev/loop0" 1 in
  let r := Decrypt kernel_no_rejoin a "" world_user in
  In (EvCryptOpen [1; 2; 3] "/dev/loop0") (new_events world_user (snd r)) /\
  fst r = ("", Some "while joining container IPC namespace: invalid argument") /\
  ~ reply_is_mapper_path "crypt0" (fst r).
Proof.
  cbv zeta. split; [|split].
  - vm_compute. auto.
  - reflexivity.
  - intros H. vm_compute in H. discriminate H.
Qed.

(** C10 (as amended).  For every [Decrypt] call that reaches the unlock
    attempt:
    - if the call does not then fail to re-join the process's IPC namespace
      (there is no re-join when the master pid is zero or less), the reply is
      "/dev/mapper/" followed by the device name the unlock attempt returned,
      and the error returned is the error of the unlock attempt.  This holds
      when the unlock failed too: the reply is then not empty, and it is
      "/dev/mapper/" alone if the failed unlock returned the empty name;
    - if the re-join fails, the call returns the error of the re-join and
      the reply is what it was on entry: it is not assigned. *)
Theorem Decrypt_reply_path
    (k : Kernel) (a : CryptArgs) (reply : string) (w : World)
    (ds : list (M unit)) (w_open : World) :
  Decrypt_enter_host k a reply [] w = (Next tt, ds, w_open) ->
  let co := crypt_open k (Key a) (Loopdev a) w_open in
  let w3 := snd (cryptDev_Open k (Key a) (Loopdev a) w_open) in
  let r := Decrypt k a reply w in
  ((MasterPid a > 0 -> sys_err k (EvEnter (getpid k) "ipc") w3 = None) ->
   fst r = ("/dev/mapper/" ++ fst co, snd co) /\
   fst (fst r) <> "" /\
   (fst co = "" -> fst (fst r) = "/dev/mapper/")) /\
  (forall e,
   MasterPid a > 0 ->
   sys_err k (EvEnter (getpid k) "ipc") w3 = Some e ->
   fst r = (reply, Some ("while joining container IPC namespace: " ++ e))).
Proof.
  intros E. cbv zeta. rewrite Decrypt_eq, E.
  unfold cryptDev_Open. cbn [snd].
  destruct (crypt_open k (Key a) (Loopdev a) w_open) as [name err].
  destruct (Z.gtb_spec (MasterPid a) 0) as [Hm|Hm].
  - unfold namespaces_Enter, sys. split.
    + intros Hj. rewrite Hj by lia. cbn [fst snd].
      split; [reflexivity|]. split; [discriminate|]. intros ->. reflexivity.
    + intros e _ Hj. rewrite Hj. reflexivity.
  - cbn [fst snd]. split.
    + intros _.
      split; [reflexivity|]. split; [discriminate|]. intros ->. reflexivity.
    + intros e He. lia.
Qed.

(** A failed unlock without a master process, and one with a master process
    and a granted re-join: the reply is "/dev/mapper/" and the unlock error
    is returned.  A successful unlock followed by a refused re-join: the
    reply the caller passed is still there. *)
Lemma Decrypt_reply_path_witness :
  Decrypt kernel_locked (mkCryptArgs [1; 2; 3] "/dev/loop0" 0) "" world_user
    = ("/dev/mapper/", Some "no key available with this passphrase",
       snd (cryptDev_Open kernel_locked [1; 2; 3] "/dev/loop0" world_user)) /\
  fst (Decrypt kernel_locked (mkCryptArgs [1; 2; 3] "/dev/loop0" 1) "" world_user)
    = ("/dev/mapper/", Some "no key available with this passphrase") /\
  fst (Decrypt kernel_no_rejoin (mkCryptArgs [1; 2; 3] "/dev/loop0" 1)
         "unset" world_user)
    = ("unset", Some "while joining container IPC namespace: invalid argument").
Proof.
  split; [|split].
  - destruct (Decrypt_reply_path kernel_locked
                (mkCryptArgs [1; 2; 3] "/dev/loop0" 0) "" world_user
                [] world_user eq_refl) as [H _].
    destruct H as [H _]; [cbn; lia|].
    apply injective_projections; [exact H | reflexivity].
  - destruct (Decrypt_reply_path kernel_locked
                (mkCryptArgs [1; 2; 3] "/dev/loop0" 1) "" world_user
                [runtime_UnlockOSThread]
                (snd (namespaces_Enter kernel_locked 1 "ipc"
                        (snd (runtime_LockOSThread world_user))))
                eq_refl) as [H _].
    destruct H as [H _]; [reflexivity | exact H].
  - destruct (Decrypt_reply_path kernel_no_rejoin
                (mkCryptArgs [1; 2; 3] "/dev/loop0" 1) "unset" world_user
                [runtime_UnlockOSThread]
                (snd (namespaces_Enter kernel_no_rejoin 1 "ipc"
                        (snd (runtime_LockOSThread world_user))))
                eq_refl) as [_ H].
    apply (H "invalid argument"); [cbn; lia | reflexivity].
Defined.

(** ** Chroot *)

Lemma Chroot_enter_shape (k : Kernel) (a : ChrootArgs) (ds : list (M unit))
    (w : World) (f : Flow error string) (ds' : list (M unit)) (w1 : World) :
  Chroot_enter k a ds w = (f, ds', w1) -> ds' = ds /\ returns_error f.
Proof.
  unfold Chroot_enter, os_Getwd, syscall_Chdir, sys.
  destruct (negb (Root a =? ".")%string); shape.
Qed.

(** The only call a strategy defers is the [Close] of the host root. *)
Lemma Chroot_switch_shape (k : Kernel) (a : ChrootArgs) (rt : string)
    (ds : list (M unit)) (w : World) (f : Flow error unit)
    (ds' : list (M unit)) (w1 : World) :
  Chroot_switch k a rt ds w = (f, ds', w1) ->
  (ds' = ds \/ exists fl, ds' = File_Close k fl :: ds) /\ returns_error f.
Proof.
  unfold Chroot_switch, Chroot_pivot, Chroot_move, Chroot_chroot,
    os_Open, os_OpenFile, syscall_Chroot, syscall_PivotRoot, syscall_Fchdir,
    syscall_Mount, syscall_Unmount, sys.
  destruct (Method a =? "pivot")%string; [shape|].
  destruct (Method a =? "move")%string; [shape|].
  destruct (Method a =? "chroot")%string; shape.
Qed.

Lemma Chroot_before_shape (k : Kernel) (a : ChrootArgs) (w : World)
    (f : Flow error unit) (ds : list (M unit)) (w1 : World) :
  Chroot_before k a [] w = (f, ds, w1) ->
  (ds = [] \/ exists fl, ds = [File_Close k fl]) /\ returns_error f.
Proof.
  unfold Chroot_before, bindB.
  destruct (Chroot_enter k a [] w) as [[[rt|r] ds0] w0] eqn:E;
    destruct (Chroot_enter_shape _ _ _ _ _ _ _ E) as [-> Hr].
  - apply Chroot_switch_shape.
  - intros H. inversion H; subst. split; [left; reflexivity | exact Hr].
Qed.

(** [Chroot] from the final change of directory on. *)
Lemma Chroot_eq (k : Kernel) (a : ChrootArgs) (w : World) :
  Chroot k a w =
  match Chroot_before k a [] w with
  | (Return r, ds, w1) => (r, run_deferred ds w1)
  | (Next _, ds, w1) =>
      (option_map (append "chdir / ") (sys_err k (EvChdir "/") w1),
       run_deferred ds (snd (syscall_Chdir k "/" w1)))
  end.
Proof.
  unfold Chroot, func at 1, bindB at 1.
  destruct (Chroot_before k a [] w) as [[[[]|r] ds] w1]; [|reflexivity].
  unfold syscall_Chdir, sys. go. answer; reflexivity.
Qed.

(** C2.  For every [Chroot] call, whatever the strategy: if the call returns
    success, then the final [chdir] to the root was made and the kernel
    granted it (had it failed, the call would have returned an error), the
    only calls after it are the deferred [Close] of the host root, and the
    current working directory of the process is the root. *)
Theorem Chroot_success_cwd (k : Kernel) (a : ChrootArgs) (w : World) :
  fst (Chroot k a w) = None ->
  cwd (snd (Chroot k a w)) = "/" /\
  exists w1 closes,
    sys_err k (EvChdir "/") w1 = None /\
    trace (snd (Chroot k a w)) = (trace w1 ++ EvChdir "/" :: closes)%list /\
    forallb is_close closes = true.
Proof.
  rewrite Chroot_eq.
  destruct (Chroot_before k a [] w) as [[[[]|r] ds] w1] eqn:E;
    destruct (Chroot_before_shape _ _ _ _ _ _ E) as [Hds Hr]; cbn [fst snd].
  - intros Hs.
    destruct (sys_err k (EvChdir "/") w1) as [e|] eqn:Hc; [discriminate Hs|].
    unfold syscall_Chdir, sys. rewrite Hc. cbn [snd].
    destruct Hds as [->|[fl ->]]; cbn.
    + split; [reflexivity|]. exists w1, []. auto.
    + unfold sys. split.
      * destruct (sys_err k (EvClose (Fd fl)) _); reflexivity.
      * exists w1, [EvClose (Fd fl)]. split; [exact Hc|]. split; [|reflexivity].
        destruct (sys_err k (EvClose (Fd fl)) _); cbn;
          rewrite <- app_assoc; reflexivity.
  - intros Hs. contradiction.
Qed.

(** Each strategy on a kernel that grants every call. *)
Lemma Chroot_success_cwd_witness :
  cwd (snd (Chroot kernel_ok (mkChrootArgs "/mnt/rootfs" "pivot") world_user)) = "/" /\
  cwd (snd (Chroot kernel_ok (mkChrootArgs "/mnt/rootfs" "move") world_user)) = "/" /\
  cwd (snd (Chroot kernel_ok (mkChrootArgs "/mnt/rootfs" "chroot") world_user)) = "/".
Proof.
  split; [|split].
  - exact (proj1 (Chroot_success_cwd kernel_ok
                    (mkChrootArgs "/mnt/rootfs" "pivot") world_user eq_refl)).
  - exact (proj1 (Chroot_success_cwd kernel_ok
                    (mkChrootArgs "/mnt/rootfs" "move") world_user eq_refl)).
  - exact (proj1 (Chroot_success_cwd kernel_ok
                    (mkChrootArgs "/mnt/rootfs" "chroot") world_user eq_refl)).
Defined.

Lemma Chroot_enter_eq (k : Kernel) (a : ChrootArgs) (w : World) :
  Chroot_enter k a [] w =
  if negb (String.eqb (Root a) ".") then
    match sys_err k (EvChdir (Root a)) w with
    | None => (Next (Root a), [], snd (syscall_Chdir k (Root a) w))
    | Some _ =>
        (Return (Errorf "failed to change directory to " (Root a)), [],
         snd (log (EvChdir (Root a)) w))
    end
  else
    (Next match sys_err k EvGetwd w with
          | None => cwd w
          | Some _ => Root a
          end, [], snd (log EvGetwd w)).
Proof.
  unfold Chroot_enter, os_Getwd, syscall_Chdir, sys. go.
  destruct (negb (Root a =? ".")%string); cbn; answer; reflexivity.
Qed.

(** With a strategy that is none of the three, the switch is empty. *)
Lemma Chroot_switch_unknown (k : Kernel) (a : ChrootArgs) (rt : string) :
  Method a <> "pivot" -> Method a <> "move" -> Method a <> "chroot" ->
  Chroot_switch k a rt = skip.
Proof.
  intros H1 H2 H3. unfold Chroot_switch.
  apply String.eqb_neq in H1, H2, H3. rewrite H1, H2, H3. reflexivity.
Qed.

(** C9 (as stated, refuted).  The strategy is unknown and the new root cannot
    be entered: the call returns an error, and the final [chdir] to the root
    is not made. *)
Lemma Chroot_unknown_method_may_fail :
  let a := mkChrootArgs "/nonexistent" "bogus" in
  let r := Chroot kernel_no_chdir a world_user in
  fst r = Some "failed to change directory to /nonexistent" /\
  new_events world_user (snd r) = [EvChdir "/nonexistent"] /\
  ~ accepts_unknown_method world_user r.
Proof.
  cbv zeta. split; [reflexivity|]. split; [reflexivity|].
  intros [_ H]. discriminate H.
Qed.

(** C9 (as amended).  For every [Chroot] call whose strategy is none of
    "pivot", "move" and "chroot": no root-switch operation is made and the
    root of the process is what it was; the strategy is never rejected.  When
    the call gets past the entry into the new root (the [chdir] to it, or,
    for ".", the query of the current directory, which cannot stop the call),
    the final [chdir] to the root is the one call that follows, and the call
    returns success if the kernel grants it and its error if not.  When the
    [chdir] into the new root fails, the call returns that error and makes no
    further call. *)
Theorem Chroot_unknown_method (k : Kernel) (a : ChrootArgs) (w : World) :
  Method a <> "pivot" -> Method a <> "move" -> Method a <> "chroot" ->
  let r := Chroot k a w in
  (forall e, In e (new_events w (snd r)) -> is_root_switch e = false) /\
  root (snd r) = root w /\
  (forall rt ds w1, Chroot_enter k a [] w = (Next rt, ds, w1) ->
     trace (snd r) = (trace w1 ++ [EvChdir "/"])%list /\
     fst r = option_map (append "chdir / ") (sys_err k (EvChdir "/") w1)) /\
  (forall e ds w1, Chroot_enter k a [] w = (Return e, ds, w1) ->
     r = (e, w1) /\ e = Errorf "failed to change directory to " (Root a)).
Proof.
  intros H1 H2 H3. cbv zeta. rewrite Chroot_eq.
  unfold Chroot_before, bindB. rewrite Chroot_enter_eq.
  assert (Hfinal : forall w0,
             trace (snd (syscall_Chdir k "/" w0)) = (trace w0 ++ [EvChdir "/"])%list /\
             root (snd (syscall_Chdir k "/" w0)) = root w0).
  { intros w0. unfold syscall_Chdir, sys.
    destruct (sys_err k (EvChdir "/") w0); split; reflexivity. }
  destruct (negb (Root a =? ".")%string).
  - destruct (sys_err k (EvChdir (Root a)) w) as [e0|] eqn:Ee.
    + cbn [fst snd run_deferred log]. split; [|split; [|split]].
      * intros e He.
        rewrite (new_events_app w _ [EvChdir (Root a)]) in He by reflexivity.
        destruct He as [<-|[]]. reflexivity.
      * reflexivity.
      * intros rt ds w1 H. discriminate H.
      * intros e ds w1 H. inversion H; subst. split; reflexivity.
    + rewrite Chroot_switch_unknown by assumption. unfold skip.
      cbn [fst snd run_deferred].
      destruct (Hfinal (snd (syscall_Chdir k (Root a) w))) as [Ht Hr].
      assert (Ht0 : trace (snd (syscall_Chdir k (Root a) w))
                    = (trace w ++ [EvChdir (Root a)])%list /\
                    root (snd (syscall_Chdir k (Root a) w)) = root w).
      { unfold syscall_Chdir, sys. rewrite Ee. split; reflexivity. }
      destruct Ht0 as [Ht0 Hr0].
      split; [|split; [|split]].
      * intros e He.
        rewrite (new_events_app w _ [EvChdir (Root a); EvChdir "/"]) in He.
        { destruct He as [<-|[<-|[]]]; reflexivity. }
        rewrite Ht, Ht0, <- app_assoc. reflexivity.
      * rewrite Hr, Hr0. reflexivity.
      * intros rt ds w1 H. inversion H; subst. split; [exact Ht | reflexivity].
      * intros e ds w1 H. discriminate H.
  - rewrite Chroot_switch_unknown by assumption. unfold skip.
    cbn [fst snd run_deferred].
    destruct (Hfinal (snd (log EvGetwd w))) as [Ht Hr].
    split; [|split; [|split]].
    + intros e He.
      rewrite (new_events_app w _ [EvGetwd; EvChdir "/"]) in He.
      { destruct He as [<-|[<-|[]]]; reflexivity. }
      rewrite Ht. cbn. rewrite <- app_assoc. reflexivity.
    + rewrite Hr. reflexivity.
    + intros rt ds w1 H. inversion H; subst. split; [exact Ht | reflexivity].
    + intros e ds w1 H. discriminate H.
Qed.

(** An unknown strategy on a kernel that grants every call: two changes of
    directory, no switch, success. *)
Lemma Chroot_unknown_method_witness :
  let r := Chroot kernel_ok (mkChrootArgs "/mnt/rootfs" "bogus") world_user in
  fst r = None /\
  trace (snd r) = [EvChdir "/mnt/rootfs"; EvChdir "/"] /\
  root (snd r) = "/".
Proof.
  cbv zeta.
  assert (N1 : Method (mkChrootArgs "/mnt/rootfs" "bogus") <> "pivot")
    by discriminate.
  assert (N2 : Method (mkChrootArgs "/mnt/rootfs" "bogus") <> "move")
    by discriminate.
  assert (N3 : Method (mkChrootArgs "/mnt/rootfs" "bogus") <> "chroot")
    by discriminate.
  destruct (Chroot_unknown_method kernel_ok
              (mkChrootArgs "/mnt/rootfs" "bogus") world_user N1 N2 N3)
    as (_ & Hr & Hn & _).
  destruct (Hn "/mnt/rootfs" []
              (snd (syscall_Chdir kernel_ok "/mnt/rootfs" world_user))
              eq_refl) as [Ht Hf].
  split; [exact Hf|]. split; [exact Ht | exact Hr].
Defined.

(** ** MonitorContainer *)

(** An iteration that goes on leaves the rest of the run as it is. *)
Lemma continues_run (k : Kernel) (pid : Z) (x y : Z * list Z * World) :
  continues k pid x y -> run_state k pid x = run_state k pid y.
Proof.
  intros H. destruct H as [st s rest w Hs Hk | st rest w wpid st' Hw Hp]; cbn.
  - apply Z.eqb_neq in Hs. rewrite Hs.
    unfold bind, syscall_Kill, sys. rewrite Hk. reflexivity.
  - unfold bind, syscall_Wait4. rewrite Hw.
    apply Z.eqb_neq in Hp. rewrite Hp. reflexivity.
Qed.

Lemma continues_star_run (k : Kernel) (pid : Z) (x y : Z * list Z * World) :
  continues_star k pid x y -> run_state k pid x = run_state k pid y.
Proof.
  induction 1 as [x | x y z Hxy _ IH]; [reflexivity|].
  rewrite (continues_run _ _ _ _ Hxy). exact IH.
Qed.

(** The calls of the loop are the events of the signals it received, one per
    signal and in order; a loop that has not returned received them all. *)
Lemma MonitorContainer_loop_events (k : Kernel) (pid : Z) (signals : list Z) :
  forall st w,
  exists n, (n <= List.length signals)%nat /\
    trace (snd (MonitorContainer_loop k pid st signals w)) =
      (trace w ++ map (signal_event pid) (firstn n signals))%list /\
    (fst (MonitorContainer_loop k pid st signals w) = None ->
     n = List.length signals).
Proof.
  induction signals as [|s rest IH]; intros st w.
  - exists 0%nat. cbn. rewrite app_nil_r. auto.
  - cbn [MonitorContainer_loop].
    destruct (s =? SIGCHLD) eqn:Es.
    + unfold bind, syscall_Wait4.
      destruct (wait4 k pid WNOHANG w) as [[wpid st'] [e|]].
      * exists 1%nat. cbn. unfold signal_event. rewrite Es.
        repeat split; [lia | discriminate].
      * destruct (negb (wpid =? pid)).
        -- destruct (IH st' (set_trace (trace w ++ [EvWait4 pid WNOHANG]) w))
             as (n & Hn & Ht & Hf).
           exists (S n). cbn [firstn map List.length]. unfold signal_event at 1.
           rewrite Es, Ht. cbn [trace set_trace]. rewrite <- app_assoc.
           repeat split; [lia | auto].
        -- exists 1%nat. cbn. unfold signal_event. rewrite Es.
           repeat split; [lia | discriminate].
    + unfold bind, syscall_Kill, sys.
      destruct (sys_err k (EvKill pid s) w) as [e|].
      * exists 1%nat. cbn. unfold signal_event. rewrite Es.
        repeat split; [lia | discriminate].
      * destruct (IH st (set_trace (trace w ++ [EvKill pid s]) w))
          as (n & Hn & Ht & Hf).
        exists (S n). cbn [firstn map List.length]. unfold signal_event at 1.
        rewrite Es, Ht. cbn [trace set_trace]. rewrite <- app_assoc.
        repeat split; [lia | auto].
Qed.

(** A return without error comes from a reap that matched. *)
Lemma MonitorContainer_loop_returns (k : Kernel) (pid : Z) (signals : list Z) :
  forall st w s',
  fst (MonitorContainer_loop k pid st signals w) = Some (s', None) ->
  exists st_n rest w_n,
    continues_star k pid (st, signals, w) (st_n, SIGCHLD :: rest, w_n) /\
    wait4 k pid WNOHANG w_n = (pid, s', None).
Proof.
  induction signals as [|s rest IH]; intros st w s'; [discriminate|].
  cbn [MonitorContainer_loop].
  destruct (Z.eqb_spec s SIGCHLD) as [->|Hs].
  - unfold bind. destruct (wait4 k pid WNOHANG w) as [[wpid st'] err] eqn:Hw.
    unfold syscall_Wait4. rewrite Hw.
    destruct err as [e|]; [discriminate|].
    destruct (Z.eqb_spec wpid pid) as [->|Hp]; cbn [negb].
    + intros H. inversion H; subst.
      exists st, rest, w. split; [constructor | exact Hw].
    + intros H. destruct (IH _ _ _ H) as (st_n & rest' & w_n & Hc & Hr).
      exists st_n, rest', w_n. split; [|exact Hr].
      eapply continues_step; [|exact Hc].
      pose proof (continues_other_child k pid st rest w wpid st' Hw Hp) as C.
      unfold syscall_Wait4 in C. rewrite Hw in C. exact C.
  - unfold bind. destruct (sys_err k (EvKill pid s) w) as [e|] eqn:Hk;
      unfold syscall_Kill, sys; rewrite Hk; [discriminate|].
    intros H. destruct (IH _ _ _ H) as (st_n & rest' & w_n & Hc & Hr).
    exists st_n, rest', w_n. split; [|exact Hr].
    eapply continues_step; [|exact Hc].
    pose proof (continues_forward k pid st s rest w Hs Hk) as C.
    unfold syscall_Kill, sys in C. rewrite Hk in C. exact C.
Qed.

(** C8.  For every pid, every sequence of signals delivered and every
    environment:
    - the calls [MonitorContainer] makes are, one per signal received and in
      the order received, a [kill] of the signal at the pid for a signal
      other than SIGCHLD and a [wait4] on the pid with WNOHANG for SIGCHLD;
      while it has not returned it has received every signal delivered;
    - an iteration whose forward succeeded, or whose reap succeeded for
      another pid, continues: the run from there is the run of the loop on
      the signals that remain;
    - the call returns a status without error exactly when, after iterations
      that all continued, a SIGCHLD is received and the reap answers the
      tracked pid; the status returned is the one that reap collected. *)
Theorem MonitorContainer_forwards_and_reaps
    (k : Kernel) (pid : Z) (signals : list Z) (w : World) :
  let r := MonitorContainer k pid signals w in
  (exists n, (n <= List.length signals)%nat /\
     new_events w (snd r) = map (signal_event pid) (firstn n signals) /\
     (fst r = None -> n = List.length signals)) /\
  (forall x y, continues k pid x y -> run_state k pid x = run_state k pid y) /\
  (forall st,
     fst r = Some (st, None) <->
     exists st_n rest w_n,
       continues_star k pid (0, signals, w) (st_n, SIGCHLD :: rest, w_n) /\
       wait4 k pid WNOHANG w_n = (pid, st, None)).
Proof.
  cbv zeta. unfold MonitorContainer. split; [|split].
  - destruct (MonitorContainer_loop_events k pid signals 0 w)
      as (n & Hn & Ht & Hf).
    exists n. split; [exact Hn|]. split; [|exact Hf].
    apply new_events_app. exact Ht.
  - apply continues_run.
  - intros st. split.
    + apply MonitorContainer_loop_returns.
    + intros (st_n & rest & w_n & Hc & Hw).
      apply continues_star_run in Hc. cbn [run_state] in Hc. rewrite Hc.
      cbn [MonitorContainer_loop]. rewrite Z.eqb_refl.
      unfold bind, syscall_Wait4. rewrite Hw, Z.eqb_refl. reflexivity.
Qed.

(** SIGTERM, then SIGCHLD for another child (pid 9), then SIGCHLD for the
    tracked child (pid 5), then SIGINT: the SIGTERM is forwarded, the loop goes
    on after the first reap and returns the status of the second; the SIGINT
    is not received. *)
Lemma MonitorContainer_forwards_and_reaps_witness :
  let r := MonitorContainer kernel_two_children 5 [15; 17; 17; 2] world_user in
  fst r = Some (256, None) /\
  new_events world_user (snd r) = [EvKill 5 15; EvWait4 5 1; EvWait4 5 1].
Proof.
  cbv zeta.
  destruct (MonitorContainer_forwards_and_reaps kernel_two_children 5
              [15; 17; 17; 2] world_user) as (_ & _ & H).
  split; [|reflexivity].
  apply (proj2 (H 256)).
  exists 0, [2],
    (snd (syscall_Wait4 kernel_two_children 5 WNOHANG
            (snd (syscall_Kill kernel_two_children 5 15 world_user)))).
  split; [|reflexivity].
  eapply continues_step.
  { apply continues_forward; [discriminate | reflexivity]. }
  eapply continues_step.
  { apply (continues_other_child kernel_two_children 5 0 [17; 2] _ 9 0);
      [reflexivity | discriminate]. }
  apply continues_refl.
Defined.

(** * Further properties of the code *)

(** ** More on Chroot *)

Ltac unfold_chroot :=
  unfold Chroot, Chroot_before, Chroot_enter, Chroot_switch, Chroot_pivot,
    Chroot_move, Chroot_chroot, os_Open, os_OpenFile, os_Getwd, File_Close,
    syscall_Chdir, syscall_Chroot, syscall_PivotRoot, syscall_Fchdir,
    syscall_Mount, syscall_Unmount, sys.

(** A [Chroot] that returns success has made exactly these calls, in this
    order: the entry into the new root, the calls of the strategy, the final
    [chdir] to the root, and for the pivot strategy the deferred [Close] of
    the host root.  For pivot: the host root is opened before the roots are
    swapped, the directory is changed to it after the swap, its propagation
    is set to slave, recursively, before it is detached.  For move: the mount
    is moved before the [chroot].  For an unknown strategy there is no call
    between the entry and the final [chdir]. *)
Theorem Chroot_success_calls (k : Kernel) (a : ChrootArgs) (w : World) :
  fst (Chroot k a w) = None ->
  exists fd,
    new_events w (snd (Chroot k a w)) =
    (enter_event a :: strategy_calls (Method a) fd ++
     EvChdir "/" :: strategy_closes (Method a) fd)%list.
Proof.
  unfold enter_event, strategy_calls, strategy_closes. unfold_chroot.
  destruct (Root a =? ".")%string;
    destruct (Method a =? "pivot")%string;
    try destruct (Method a =? "move")%string;
    try destruct (Method a =? "chroot")%string;
    crunch; cbn [fst snd]; intros Hs; try discriminate Hs;
    match goal with
    | H : open_result _ _ _ _ _ = inl ?z |- _ => exists z
    | _ => exists 0
    end; apply new_events_app; cbn; rewrite <- ?app_assoc; reflexivity.
Qed.

(** The pivot strategy on a kernel that grants every call. *)
Lemma Chroot_success_calls_witness :
  exists fd,
    new_events world_user
      (snd (Chroot kernel_ok (mkChrootArgs "/mnt/rootfs" "pivot") world_user)) =
    [EvChdir "/mnt/rootfs"; EvOpenFile "/" 0 0; EvPivotRoot "." "."; EvFchdir fd;
     EvMount "" "." "" 540672 ""; EvUnmount "." 2; EvChdir "/"; EvClose fd].
Proof.
  exact (Chroot_success_calls kernel_ok
           (mkChrootArgs "/mnt/rootfs" "pivot") world_user eq_refl).
Defined.

(** After a successful [Chroot] with one of the three strategies, the root of
    the process is the directory the request named: the requested root
    resolved against the working directory at entry (the working directory
    itself for "."). *)
Theorem Chroot_success_root (k : Kernel) (a : ChrootArgs) (w : World) :
  known_method (Method a) = true ->
  fst (Chroot k a w) = None ->
  root (snd (Chroot k a w)) = resolve w (Root a).
Proof.
  destruct a as [rt m]. unfold known_method. cbn [Root Method].
  unfold_chroot. cbn [Root Method].
  destruct (rt =? ".")%string eqn:Er;
    [apply String.eqb_eq in Er; subst rt|];
    destruct (m =? "pivot")%string;
    try destruct (m =? "move")%string;
    try destruct (m =? "chroot")%string;
    try discriminate;
    intros _; crunch; cbn [fst snd]; intros Hs; try discriminate Hs.
  all: reflexivity.
Qed.

(** A relative root is resolved against the working directory at entry. *)
Lemma Chroot_success_root_witness :
  root (snd (Chroot kernel_ok (mkChrootArgs "/mnt/rootfs" "move") world_user))
    = "/mnt/rootfs" /\
  root (snd (Chroot kernel_ok (mkChrootArgs "rootfs" "chroot") world_user))
    = "/home/user/rootfs".
Proof.
  split.
  - exact (Chroot_success_root kernel_ok (mkChrootArgs "/mnt/rootfs" "move")
             world_user eq_refl eq_refl).
  - exact (Chroot_success_root kernel_ok (mkChrootArgs "rootfs" "chroot")
             world_user eq_refl eq_refl).
Defined.

Ltac failing_call k :=
  match goal with
  | H : sys_err k ?e ?W0 = Some _ |- _ =>
      lazymatch e with
      | EvClose _ => fail
      | EvGetwd => fail
      | _ =>
          exists e; eexists; exists (trace W0);
          split; [cbn; rewrite <- ?app_assoc; reflexivity|];
          split; [reflexivity|];
          split; [discriminate|];
          left; change (sys_err k e W0 <> None); rewrite H; discriminate
      end
  | H : open_result k ?p ?f ?m ?W0 = inr ?msg |- _ =>
      exists (EvOpenFile p f m); eexists; exists (trace W0);
      split; [cbn; rewrite <- ?app_assoc; reflexivity|];
      split; [reflexivity|];
      split; [discriminate|];
      right; exists p, f, m, msg; split; [reflexivity | exact H]
  end.

(** A [Chroot] that returns an error stops at the call the environment
    refused: that call is the last one made, apart from the deferred [Close]
    of the host root, and the world in which it was refused is the final
    world up to the trace.  A refused query of the working directory does not
    stop the call, so the refused call is never that one. *)
Theorem Chroot_stops_at_first_failure (k : Kernel) (a : ChrootArgs) (w : World) :
  fst (Chroot k a w) <> None ->
  exists ev closes pre,
    trace (snd (Chroot k a w)) = (pre ++ ev :: closes)%list /\
    forallb is_close closes = true /\
    ev <> EvGetwd /\
    refused k ev (set_trace pre (snd (Chroot k a w))).
Proof.
  unfold refused. unfold_chroot. destruct w.
  destruct (Root a =? ".")%string;
    destruct (Method a =? "pivot")%string;
    try destruct (Method a =? "move")%string;
    try destruct (Method a =? "chroot")%string;
    crunch; cbn [fst snd]; intros Hs; try (exfalso; apply Hs; reflexivity);
    failing_call k.
Qed.

(** The old root cannot be detached: the unmount is the last call before the
    [Close]. *)
Lemma Chroot_stops_at_first_failure_witness :
  exists ev closes pre,
    trace (snd (Chroot kernel_no_unmount
                  (mkChrootArgs "/mnt/rootfs" "pivot") world_user))
      = (pre ++ ev :: closes)%list /\
    forallb is_close closes = true /\
    ev <> EvGetwd /\
    refused kernel_no_unmount ev
      (set_trace pre
         (snd (Chroot kernel_no_unmount
                 (mkChrootArgs "/mnt/rootfs" "pivot") world_user))).
Proof.
  apply (Chroot_stops_at_first_failure kernel_no_unmount
           (mkChrootArgs "/mnt/rootfs" "pivot") world_user).
  discriminate.
Defined.


(** The pivot strategy releases the descriptor of the host root on every
    path: once the new root is entered, if the host root is opened with
    descriptor [fd], then whatever fails or succeeds afterwards the last call
    of [Chroot] is the [Close] of [fd], and it is the only [Close]; if the
    host root cannot be opened, [Chroot] returns that error, having made no
    call after the failed open. *)
Theorem Chroot_pivot_releases_host_root
    (k : Kernel) (a : ChrootArgs) (w : World)
    (rt : string) (ds : list (M unit)) (w1 : World) :
  Method a = "pivot" ->
  Chroot_enter k a [] w = (Next rt, ds, w1) ->
  match open_result k "/" O_RDONLY 0 w1 with
  | inl fd =>
      exists mid,
        new_events w1 (snd (Chroot k a w)) = EvOpenFile "/" O_RDONLY 0 :: mid /\
        last mid EvGetwd = EvClose fd /\
        List.length (filter is_close mid) = 1%nat
  | inr msg =>
      Chroot k a w =
      (Some ("failed to open host root directory: " ++ msg),
       snd (log (EvOpenFile "/" O_RDONLY 0) w1))
  end.
Proof.
  intros Hm E.
  destruct (Chroot_enter_shape _ _ _ _ _ _ _ E) as [-> _].
  unfold Chroot, Chroot_before, func, bindB. rewrite E.
  unfold Chroot_switch. rewrite Hm. cbn [String.eqb Ascii.eqb Bool.eqb].
  unfold Chroot_pivot, os_Open, os_OpenFile, File_Close,
    syscall_Chdir, syscall_PivotRoot, syscall_Fchdir,
    syscall_Mount, syscall_Unmount, sys.
  go. destruct (open_result k "/" O_RDONLY 0 w1) as [fd|msg]; [|reflexivity].
  crunch; eexists;
    (split; [apply new_events_app; cbn; rewrite <- ?app_assoc; reflexivity|]);
    split; reflexivity.
Qed.

(** The same failing pivot: descriptor 3 is closed last. *)
Lemma Chroot_pivot_releases_host_root_witness :
  exists mid,
    new_events (snd (syscall_Chdir kernel_no_unmount "/mnt/rootfs" world_user))
      (snd (Chroot kernel_no_unmount
              (mkChrootArgs "/mnt/rootfs" "pivot") world_user))
      = EvOpenFile "/" O_RDONLY 0 :: mid /\
    last mid EvGetwd = EvClose 3 /\
    List.length (filter is_close mid) = 1%nat.
Proof.
  exact (Chroot_pivot_releases_host_root kernel_no_unmount
           (mkChrootArgs "/mnt/rootfs" "pivot") world_user "/mnt/rootfs" []
           (snd (syscall_Chdir kernel_no_unmount "/mnt/rootfs" world_user))
           eq_refl eq_refl).
Defined.

(** ** More on Decrypt *)

(** When the master pid is above zero and the namespace of the master process
    cannot be joined, [Decrypt] returns that error with the reply as it was;
    the unlock is never attempted, the thread is unlocked again, and nothing
    of the world but the trace has changed. *)
Theorem Decrypt_host_join_failure
    (k : Kernel) (a : CryptArgs) (reply : string) (w : World) (e : string) :
  MasterPid a > 0 ->
  sys_err k (EvEnter (MasterPid a) "ipc") (snd (runtime_LockOSThread w)) = Some e ->
  let r := Decrypt k a reply w in
  fst r = (reply, Some ("while joining host IPC namespace: " ++ e)) /\
  new_events w (snd r) =
    [EvLockOSThread; EvEnter (MasterPid a) "ipc"; EvUnlockOSThread] /\
  set_trace (trace w) (snd r) = set_trace (trace w) w.
Proof.
  intros Hm He. cbv zeta. rewrite Decrypt_eq, Decrypt_enter_host_eq.
  destruct (Z.gtb_spec (MasterPid a) 0); [|lia].
  cbv zeta. rewrite He. unfold namespaces_Enter, sys. rewrite He.
  cbn. split; [reflexivity|]. split; [|reflexivity].
  apply new_events_app. cbn. rewrite <- !app_assoc. reflexivity.
Qed.

(** The namespace of process 1 cannot be joined. *)
Lemma Decrypt_host_join_failure_witness :
  let r := Decrypt kernel_no_host_join
             (mkCryptArgs [1; 2; 3] "/dev/loop0" 1) "" world_user in
  fst r = ("", Some "while joining host IPC namespace: operation not permitted") /\
  new_events world_user (snd r) =
    [EvLockOSThread; EvEnter 1 "ipc"; EvUnlockOSThread].
Proof.
  cbv zeta.
  assert (Hm : MasterPid (mkCryptArgs [1; 2; 3] "/dev/loop0" 1) > 0)
    by (cbn; lia).
  destruct (Decrypt_host_join_failure kernel_no_host_join
              (mkCryptArgs [1; 2; 3] "/dev/loop0" 1) "" world_user
              "operation not permitted" Hm eq_refl) as (H1 & H2 & _).
  split; [exact H1 | exact H2].
Defined.

(** The namespace round trip of [Decrypt]: for a process that starts in its
    own IPC namespace, with a master pid above zero and both joins granted,
    the unlock is attempted while the thread is in the namespace of the
    master process, and after the call the thread is in the namespace it
    started in, whether the unlock succeeded or not. *)
Theorem Decrypt_namespace_round_trip
    (k : Kernel) (a : CryptArgs) (reply : string) (w : World)
    (ds : list (M unit)) (w_open : World) :
  MasterPid a > 0 ->
  ipcns w = ipcns_of k (getpid k) ->
  Decrypt_enter_host k a reply [] w = (Next tt, ds, w_open) ->
  sys_err k (EvEnter (getpid k) "ipc")
    (snd (cryptDev_Open k (Key a) (Loopdev a) w_open)) = None ->
  ipcns w_open = ipcns_of k (MasterPid a) /\
  ipcns (snd (Decrypt k a reply w)) = ipcns w.
Proof.
  intros Hm Hown E Hj. rewrite Decrypt_eq, E. revert E.
  rewrite Decrypt_enter_host_eq.
  destruct (Z.gtb_spec (MasterPid a) 0); [|lia]. cbv zeta.
  destruct (sys_err k (EvEnter (MasterPid a) "ipc") _) eqn:He; [discriminate|].
  intros E. inversion E; subst ds w_open. clear E.
  unfold runtime_LockOSThread, log in He. cbn [snd] in He.
  assert (En : namespaces_Enter k (MasterPid a) "ipc"
                 (set_trace (trace w ++ [EvLockOSThread]) w) =
               (None, set_ipcns (ipcns_of k (MasterPid a))
                        (set_trace
                           ((trace w ++ [EvLockOSThread]) ++
                            [EvEnter (MasterPid a) "ipc"])
                           (set_trace (trace w ++ [EvLockOSThread]) w)))).
  { unfold namespaces_Enter, sys. rewrite He. reflexivity. }
  rewrite En in *. cbn [snd] in *. split; [reflexivity|].
  unfold cryptDev_Open in *. cbn [snd] in Hj.
  destruct (crypt_open k (Key a) (Loopdev a) _) as [name err].
  unfold namespaces_Enter, sys. rewrite Hj. cbn. symmetry. exact Hown.
Qed.

(** Out to namespace 1 for the unlock, back to namespace 2, with an unlock
    that fails. *)
Lemma Decrypt_namespace_round_trip_witness :
  ipcns (snd (namespaces_Enter kernel_locked 1 "ipc"
                (snd (runtime_LockOSThread world_user)))) = 1 /\
  ipcns (snd (Decrypt kernel_locked
                (mkCryptArgs [1; 2; 3] "/dev/loop0" 1) "" world_user)) = 2.
Proof.
  assert (Hm : MasterPid (mkCryptArgs [1; 2; 3] "/dev/loop0" 1) > 0)
    by (cbn; lia).
  exact (Decrypt_namespace_round_trip kernel_locked
           (mkCryptArgs [1; 2; 3] "/dev/loop0" 1) "" world_user
           [runtime_UnlockOSThread]
           (snd (namespaces_Enter kernel_locked 1 "ipc"
                   (snd (runtime_LockOSThread world_user))))
           Hm eq_refl eq_refl eq_refl).
Defined.

(** [Decrypt] pins the thread only for the namespace change and always
    unpins it: on every path the calls it makes lock and unlock the thread
    equally often; with a master pid of zero or less the thread is never
    locked; with a master pid above zero the lock is the first call and the
    unlock the last, also on the error paths. *)
Theorem Decrypt_lock_balanced
    (k : Kernel) (a : CryptArgs) (reply : string) (w : World) :
  let new := new_events w (snd (Decrypt k a reply w)) in
  List.length (filter is_lock new) = List.length (filter is_unlock new) /\
  (MasterPid a <= 0 -> filter is_lock new = []) /\
  (MasterPid a > 0 ->
   hd EvGetwd new = EvLockOSThread /\ last new EvGetwd = EvUnlockOSThread).
Proof.
  cbv zeta. rewrite Decrypt_eq, Decrypt_enter_host_eq.
  unfold cryptDev_Open, namespaces_Enter, sys, runtime_LockOSThread,
    runtime_UnlockOSThread, log.
  destruct (Z.gtb_spec (MasterPid a) 0) as [Hm|Hm]; cbn.
  - destruct (sys_err k (EvEnter (MasterPid a) "ipc") _); cbn.
    + rewrite (new_events_app w _
        [EvLockOSThread; EvEnter (MasterPid a) "ipc"; EvUnlockOSThread])
        by (cbn; rewrite <- !app_assoc; reflexivity).
      cbn. repeat split; lia.
    + destruct (crypt_open k (Key a) (Loopdev a) _) as [name err]. cbn.
      destruct (sys_err k (EvEnter (getpid k) "ipc") _); cbn;
        rewrite (new_events_app w _
          [EvLockOSThread; EvEnter (MasterPid a) "ipc";
           EvCryptOpen (Key a) (Loopdev a);
           EvEnter (getpid k) "ipc"; EvUnlockOSThread])
          by (cbn; rewrite <- !app_assoc; reflexivity);
        cbn; repeat split; lia.
  - destruct (crypt_open k (Key a) (Loopdev a) w) as [name err]. cbn.
    rewrite (new_events_app w _ [EvCryptOpen (Key a) (Loopdev a)])
      by reflexivity.
    cbn. repeat split; lia.
Qed.

(** A call whose re-join fails still unlocks the thread last. *)
Lemma Decrypt_lock_balanced_witness :
  let new := new_events world_user
               (snd (Decrypt kernel_no_rejoin
                       (mkCryptArgs [1; 2; 3] "/dev/loop0" 1) "" world_user)) in
  hd EvGetwd new = EvLockOSThread /\ last new EvGetwd = EvUnlockOSThread.
Proof.
  cbv zeta.
  destruct (Decrypt_lock_balanced kernel_no_rejoin
              (mkCryptArgs [1; 2; 3] "/dev/loop0" 1) "" world_user)
    as (_ & _ & H).
  apply H. cbn. lia.
Defined.

(** ** More on LoopDevice *)

(** The environment [kernel_ok] is privileged. *)
Lemma kernel_ok_privileged : privileged kernel_ok.
Proof. intros w. reflexivity. Defined.

(** A [LoopDevice] that cannot get its image (a malformed descriptor
    reference, or a path that cannot be opened) returns an error with the
    reply as it was and touches nothing: no group lookup, no change of
    filesystem identity, no attach; the cache and the rest of the world are
    as before, and the only call made, if any, is the failed open. *)
Theorem LoopDevice_image_failure
    (k : Kernel) (a : LoopArgs) (reply : Z) (w : World)
    (r0 : Z * error) (ds : list (M unit)) (w1 : World) :
  LoopDevice_image k a reply [] w = (Return r0, ds, w1) ->
  LoopDevice k a reply w = (r0, w1) /\
  fst r0 = reply /\ snd r0 <> None /\
  set_trace (trace w) w1 = set_trace (trace w) w /\
  (new_events w w1 = [] \/
   new_events w w1 = [EvOpenFile (Image a) (Mode a) 384]).
Proof.
  intros E. rewrite LoopDevice_eq, E. split; [reflexivity|].
  revert E. rewrite LoopDevice_image_eq.
  destruct (strings_HasPrefix (Image a) fd_prefix).
  - destruct (strconv_ParseUint _ 10 32); intros E; inversion E; subst.
    cbn. repeat split; [discriminate|].
    left. apply new_events_app. symmetry. apply app_nil_r.
  - destruct (open_result k (Image a) (Mode a) 384 w);
      intros E; inversion E; subst.
    cbn. repeat split; [discriminate|].
    right. apply new_events_app. reflexivity.
Qed.

(** An image that cannot be opened. *)
Lemma LoopDevice_image_failure_witness :
  LoopDevice kernel_fail (loop_args "/images/alpine.sif") 7 world_user =
  (7, Some "could not open image file: no such file or directory",
   snd (log (EvOpenFile "/images/alpine.sif" 2 384) world_user)).
Proof.
  exact (proj1 (LoopDevice_image_failure kernel_fail
                  (loop_args "/images/alpine.sif") 7 world_user
                  (7, Some "could not open image file: no such file or directory")
                  [] (snd (log (EvOpenFile "/images/alpine.sif" 2 384) world_user))
                  eq_refl)).
Defined.

Lemma escalated_privileged (k : Kernel) (w : World) :
  privileged k ->
  fsuid (escalated k w) = 0 /\ fsgid (escalated k w) = diskGID w.
Proof.
  intros Hp. unfold escalated, syscall_Setfsuid, syscall_Setfsgid,
    runtime_LockOSThread, log.
  cbn. rewrite ?Hp. cbn. rewrite ?Hp. cbn. auto.
Qed.

(** Once [LoopDevice] has its image, the attach is made inside the bracket:
    the calls end with lock, [setfsuid 0], [setfsgid] of the cached group,
    the attach, [setfsgid] and [setfsuid] of the real ids, unlock, and no
    identity or lock call precedes them.  The reply and the error are those
    of the attach (the error wrapped).  Under a privileged thread the attach
    is made with filesystem user id 0 and the cached disk group as filesystem
    group id. *)
Theorem LoopDevice_attach_in_bracket
    (k : Kernel) (a : LoopArgs) (reply : Z) (w : World)
    (image : File) (ds : list (M unit)) (w1 : World) :
  LoopDevice_image k a reply [] w = (Next image, ds, w1) ->
  let dev := mkDevice (MaxDevices a) (LShared a) (LInfo a) in
  let g := diskGID (after_resolution k w1) in
  let w_att := escalated k (after_resolution k w1) in
  fst (LoopDevice k a reply w) =
    attach_outcome reply (attach k dev image (Mode a) w_att) /\
  (exists pre,
     new_events w (snd (LoopDevice k a reply w)) =
     (pre ++ [EvLockOSThread; EvSetfsuid 0; EvSetfsgid g;
              EvAttachFromFile dev image (Mode a);
              EvSetfsgid (gid w); EvSetfsuid (uid w); EvUnlockOSThread])%list /\
     forallb (fun e => negb (is_setfsid e || is_lock e || is_unlock e)) pre
       = true) /\
  (privileged k -> fsuid w_att = 0 /\ fsgid w_att = g).
Proof.
  intros E. cbv zeta. split; [|split].
  - rewrite LoopDevice_eq, E, LoopDevice_attach_eq. reflexivity.
  - pose proof (LoopDevice_trace k a reply w _ _ _ E) as Ht.
    assert (H1 : exists e, trace w1 = (trace w ++ [e])%list /\
                   (is_setfsid e || is_lock e || is_unlock e) = false).
    { revert E. rewrite LoopDevice_image_eq.
      destruct (strings_HasPrefix (Image a) fd_prefix).
      - destruct (strconv_ParseUint _ 10 32); intros E; inversion E; subst.
        eexists. split; reflexivity.
      - destruct (open_result k (Image a) (Mode a) 384 w);
          intros E; inversion E; subst.
        eexists. split; reflexivity. }
    destruct H1 as (e & He & Hb). rewrite He, <- app_assoc in Ht.
    apply new_events_app in Ht. rewrite Ht.
    exists ([e] ++ (if diskGID w =? -1 then [EvGetGrNam "disk"] else []))%list.
    split; [rewrite <- app_assoc; reflexivity|].
    cbn. rewrite Hb. destruct (diskGID w =? -1); reflexivity.
  - apply escalated_privileged.
Qed.

(** A first attach by user 1000: the attach is made as 0/6. *)
Lemma LoopDevice_attach_in_bracket_witness :
  let w_att := escalated kernel_ok
                 (after_resolution kernel_ok
                    (snd (log (EvOpenFile "/images/alpine.sif" 2 384) world_user))) in
  fst (LoopDevice kernel_ok (loop_args "/images/alpine.sif") 7 world_user)
    = (0, None) /\
  fsuid w_att = 0 /\ fsgid w_att = 6.
Proof.
  cbv zeta.
  destruct (LoopDevice_attach_in_bracket kernel_ok
              (loop_args "/images/alpine.sif") 7 world_user
              (mkFile 3 "/images/alpine.sif") []
              (snd (log (EvOpenFile "/images/alpine.sif" 2 384) world_user))
              eq_refl) as (H1 & _ & H3).
  split; [exact H1 | exact (H3 kernel_ok_privileged)].
Defined.

(** ** SetFsID *)

(** [SetFsID] is its two calls, made on the executor thread. *)
Lemma SetFsID_eq (k : Kernel) (a : SetFsIDArgs) (w : World) :
  SetFsID k a w =
  (None,
   snd (syscall_Setfsgid k Executor (GID a)
          (snd (syscall_Setfsuid k Executor (UID a) w)))).
Proof.
  unfold SetFsID. go.
  destruct (syscall_Setfsuid k Executor (UID a) w) as [[] w1]. cbn [snd].
  destruct (syscall_Setfsgid k Executor (GID a) w1) as [[] w2].
  reflexivity.
Qed.

(** [SetFsID] never reports a failure: for ids proper it returns no error
    whatever the kernel does with the two calls it makes.  The calls are
    made on the executor thread: the filesystem ids of the thread that
    serves the request, the ids of the process and the cached disk group
    are as before.  Under a privileged thread the filesystem ids of the
    executor thread become the requested ones, and nothing in the method
    puts them back.  A thread without the capability that asks for a user
    id which is none of the real, effective, saved and current filesystem
    user id keeps its id, and the caller is not told. *)
Theorem SetFsID_silent (k : Kernel) (a : SetFsIDArgs) (w : World) :
  valid_id (UID a) -> valid_id (GID a) ->
  let r := SetFsID k a w in
  fst r = None /\
  new_events w (snd r) = [EvSetfsuid (UID a); EvSetfsgid (GID a)] /\
  (uid (snd r) = uid w /\ gid (snd r) = gid w /\
   euid (snd r) = euid w /\ egid (snd r) = egid w /\
   suid (snd r) = suid w /\ sgid (snd r) = sgid w /\
   diskGID (snd r) = diskGID w) /\
  (fsuid (snd r) = fsuid w /\ fsgid (snd r) = fsgid w) /\
  (privileged k ->
   main_fsuid (snd r) = UID a /\ main_fsgid (snd r) = GID a) /\
  (cap_setid k w = false ->
   UID a <> uid w -> UID a <> euid w -> UID a <> suid w ->
   UID a <> main_fsuid w ->
   main_fsuid (snd r) = main_fsuid w).
Proof.
  intros _ _. cbv zeta. rewrite SetFsID_eq.
  unfold syscall_Setfsuid, syscall_Setfsgid. cbn [fst snd fsuid_of fsgid_of].
  split; [reflexivity|]. split; [|split; [|split; [|split]]].
  - apply new_events_app.
    destruct (cap_setid k w || _ || _ || _ || _); cbn;
      match goal with
      | |- context [if ?c then _ else _] => destruct c
      end; cbn; rewrite <- app_assoc; reflexivity.
  - destruct (cap_setid k w || _ || _ || _ || _); cbn;
      match goal with
      | |- context [if ?c then _ else _] => destruct c
      end; cbn; auto 10.
  - destruct (cap_setid k w || _ || _ || _ || _); cbn;
      match goal with
      | |- context [if ?c then _ else _] => destruct c
      end; cbn; auto.
  - intros Hp. rewrite ?Hp. cbn. rewrite ?Hp. cbn. auto.
  - intros Hc H1 H2 H3 H4. rewrite Hc.
    apply Z.eqb_neq in H1, H2, H3, H4. rewrite H1, H2, H3, H4. cbn.
    match goal with
    | |- context [if ?c then _ else _] => destruct c
    end; reflexivity.
Qed.

(** A privileged change to 1000/1000 on the executor thread, and a refused
    change to 0 by a thread without the capability. *)
Lemma SetFsID_silent_witness :
  (fst (SetFsID kernel_ok (mkSetFsIDArgs 1000 1000) world_root) = None /\
   main_fsuid (snd (SetFsID kernel_ok (mkSetFsIDArgs 1000 1000) world_root))
     = 1000 /\
   fsuid (snd (SetFsID kernel_ok (mkSetFsIDArgs 1000 1000) world_root)) = 0) /\
  (fst (SetFsID kernel_fail (mkSetFsIDArgs 0 0) world_user) = None /\
   main_fsuid (snd (SetFsID kernel_fail (mkSetFsIDArgs 0 0) world_user))
     = 1000).
Proof.
  assert (V1 : valid_id 1000) by (unfold valid_id; lia).
  assert (V0 : valid_id 0) by (unfold valid_id; lia).
  split.
  - destruct (SetFsID_silent kernel_ok (mkSetFsIDArgs 1000 1000) world_root
                V1 V1) as (H1 & _ & _ & H4 & H5 & _).
    split; [exact H1|].
    split; [exact (proj1 (H5 kernel_ok_privileged)) | exact (proj1 H4)].
  - destruct (SetFsID_silent kernel_fail (mkSetFsIDArgs 0 0) world_user V0 V0)
      as (H1 & _ & _ & _ & _ & H6).
    split; [exact H1|].
    apply H6; [reflexivity | discriminate | discriminate | discriminate
              | discriminate].
Defined.

(** [LoopDevice] acts on the thread that serves the call: the filesystem ids
    of the executor thread are not its concern. *)
Lemma LoopDevice_executor_ids (k : Kernel) (a : LoopArgs) (reply : Z)
    (w : World) :
  main_fsuid (snd (LoopDevice k a reply w)) = main_fsuid w /\
  main_fsgid (snd (LoopDevice k a reply w)) = main_fsgid w.
Proof.
  assert (Hu : forall u w0,
             main_fsuid (snd (syscall_Setfsuid k Serving u w0)) = main_fsuid w0 /\
             main_fsgid (snd (syscall_Setfsuid k Serving u w0)) = main_fsgid w0).
  { intros u w0. unfold syscall_Setfsuid. cbn.
    destruct (cap_setid k w0 || _ || _ || _ || _); cbn; auto. }
  assert (Hg : forall g w0,
             main_fsuid (snd (syscall_Setfsgid k Serving g w0)) = main_fsuid w0 /\
             main_fsgid (snd (syscall_Setfsgid k Serving g w0)) = main_fsgid w0).
  { intros g w0. unfold syscall_Setfsgid. cbn.
    destruct (cap_setid k w0 || _ || _ || _ || _); cbn; auto. }
  assert (Hr : forall w0,
             main_fsuid (after_resolution k w0) = main_fsuid w0 /\
             main_fsgid (after_resolution k w0) = main_fsgid w0).
  { intros w0. unfold after_resolution.
    destruct (diskGID w0 =? -1); cbn; auto. }
  rewrite LoopDevice_eq, LoopDevice_image_eq.
  assert (Ha : forall dev image w0,
             main_fsuid (snd (func (LoopDevice_attach k a reply dev image) w0))
               = main_fsuid w0 /\
             main_fsgid (snd (func (LoopDevice_attach k a reply dev image) w0))
               = main_fsgid w0).
  { intros dev image w0. rewrite LoopDevice_attach_eq. cbn zeta. cbn [snd].
    unfold restored, escalated, loopdev_AttachFromFile, runtime_UnlockOSThread,
      runtime_LockOSThread, log.
    assert (Hu1 := fun u w1 => proj1 (Hu u w1)).
    assert (Hu2 := fun u w1 => proj2 (Hu u w1)).
    assert (Hg1 := fun g w1 => proj1 (Hg g w1)).
    assert (Hg2 := fun g w1 => proj2 (Hg g w1)).
    cbn beta in Hu1, Hu2, Hg1, Hg2.
    repeat (progress (cbn [snd main_fsuid main_fsgid set_trace];
                      rewrite ?Hu1, ?Hu2, ?Hg1, ?Hg2)).
    auto. }
  destruct (strings_HasPrefix (Image a) fd_prefix).
  - destruct (strconv_ParseUint _ 10 32); [|auto].
    destruct (Ha (mkDevice (MaxDevices a) (LShared a) (LInfo a))
                (mkFile z "") (after_resolution k (snd (log (EvNewFile z) w))))
      as [H1 H2].
    rewrite H1, H2. rewrite (proj1 (Hr _)), (proj2 (Hr _)). auto.
  - destruct (open_result k (Image a) (Mode a) 384 w) as [fd|msg]; [|auto].
    destruct (Ha (mkDevice (MaxDevices a) (LShared a) (LInfo a))
                (mkFile fd (Image a))
                (after_resolution k
                   (snd (log (EvOpenFile (Image a) (Mode a) 384) w))))
      as [H1 H2].
    rewrite H1, H2. rewrite (proj1 (Hr _)), (proj2 (Hr _)). auto.
Qed.

(** [SetFsID] followed by [LoopDevice]: the two act on different threads.
    The filesystem ids [SetFsID] gives the executor thread, under privilege
    and for ids proper, are still in force after any [LoopDevice] call,
    whatever that call does and under any environment; and [SetFsID] has not
    changed the ids of the serving thread that the bracket of [LoopDevice]
    starts from. *)
Theorem SetFsID_survives_LoopDevice
    (k k' : Kernel) (ids : SetFsIDArgs) (a : LoopArgs) (reply : Z) (w : World) :
  valid_id (UID ids) -> valid_id (GID ids) ->
  privileged k ->
  let w_set := snd (SetFsID k ids w) in
  let w_loop := snd (LoopDevice k' a reply w_set) in
  (main_fsuid w_set = UID ids /\ main_fsgid w_set = GID ids) /\
  (fsuid w_set = fsuid w /\ fsgid w_set = fsgid w) /\
  (main_fsuid w_loop = UID ids /\ main_fsgid w_loop = GID ids).
Proof.
  intros _ _ Hp. cbv zeta.
  assert (Hs : (main_fsuid (snd (SetFsID k ids w)) = UID ids /\
                main_fsgid (snd (SetFsID k ids w)) = GID ids) /\
               (fsuid (snd (SetFsID k ids w)) = fsuid w /\
                fsgid (snd (SetFsID k ids w)) = fsgid w)).
  { rewrite SetFsID_eq. unfold syscall_Setfsuid, syscall_Setfsgid.
    cbn [snd]. rewrite ?Hp. cbn. rewrite ?Hp. cbn. auto. }
  destruct Hs as [Hm Hserv].
  destruct (LoopDevice_executor_ids k' a reply (snd (SetFsID k ids w)))
    as [H1 H2].
  rewrite H1, H2. auto.
Qed.

(** The superuser's server: the executor thread is at 1000/1000 after
    [SetFsID] and after the attach; the serving thread is at 0/0 throughout. *)
Lemma SetFsID_survives_LoopDevice_witness :
  let w_set := snd (SetFsID kernel_ok (mkSetFsIDArgs 1000 1000) world_root) in
  let w_loop := snd (LoopDevice kernel_ok (loop_args "/images/alpine.sif") 0 w_set) in
  (main_fsuid w_set = 1000 /\ main_fsgid w_set = 1000) /\
  (fsuid w_set = 0 /\ fsgid w_set = 0) /\
  (main_fsuid w_loop = 1000 /\ main_fsgid w_loop = 1000).
Proof.
  assert (V : valid_id 1000) by (unfold valid_id; lia).
  exact (SetFsID_survives_LoopDevice kernel_ok kernel_ok
           (mkSetFsIDArgs 1000 1000) (loop_args "/images/alpine.sif") 0
           world_root V V kernel_ok_privileged).
Defined.

(** ** More on MonitorContainer *)

Lemma MonitorContainer_loop_errors (k : Kernel) (pid : Z) (signals : list Z) :
  forall st w st' msg,
  fst (MonitorContainer_loop k pid st signals w) = Some (st', Some msg) ->
  exists st_n s rest w_n,
    continues_star k pid (st, signals, w) (st_n, s :: rest, w_n) /\
    ((s <> SIGCHLD /\ sys_err k (EvKill pid s) w_n <> None /\ st' = st_n /\
      msg = "interrupted by signal " ++ signame k s) \/
     (s = SIGCHLD /\ exists wpid e,
        wait4 k pid WNOHANG w_n = (wpid, st', Some e) /\
        msg = "error while waiting child: " ++ e)).
Proof.
  induction signals as [|s rest IH]; intros st w st' msg; [discriminate|].
  cbn [MonitorContainer_loop].
  destruct (Z.eqb_spec s SIGCHLD) as [->|Hs].
  - unfold bind. destruct (wait4 k pid WNOHANG w) as [[wpid st1] err] eqn:Hw.
    unfold syscall_Wait4. rewrite Hw.
    destruct err as [e|].
    + intros H. inversion H; subst.
      exists st, SIGCHLD, rest, w. split; [constructor|].
      right. split; [reflexivity|]. exists wpid, e. auto.
    + destruct (Z.eqb_spec wpid pid) as [->|Hp]; cbn [negb]; [discriminate|].
      intros H. destruct (IH _ _ _ _ H) as (st_n & s' & rest' & w_n & Hc & Hr).
      exists st_n, s', rest', w_n. split; [|exact Hr].
      eapply continues_step; [|exact Hc].
      pose proof (continues_other_child k pid st rest w wpid st1 Hw Hp) as C.
      unfold syscall_Wait4 in C. rewrite Hw in C. exact C.
  - unfold bind. destruct (sys_err k (EvKill pid s) w) as [e|] eqn:Hk;
      unfold syscall_Kill, sys; rewrite Hk.
    + intros H. inversion H; subst.
      exists st', s, rest, w. split; [constructor|].
      left. repeat split; auto. rewrite Hk. discriminate.
    + intros H. destruct (IH _ _ _ _ H) as (st_n & s' & rest' & w_n & Hc & Hr).
      exists st_n, s', rest', w_n. split; [|exact Hr].
      eapply continues_step; [|exact Hc].
      pose proof (continues_forward k pid st s rest w Hs Hk) as C.
      unfold syscall_Kill, sys in C. rewrite Hk in C. exact C.
Qed.

(** [MonitorContainer] returns an error in exactly two cases, reached after
    iterations that all continued: a signal other than SIGCHLD could not be
    forwarded (the error names the signal, the status is the one of the last
    reap), or the reap after a SIGCHLD failed (the error carries the kernel's
    message). *)
Theorem MonitorContainer_error_returns
    (k : Kernel) (pid : Z) (signals : list Z) (w : World) (st : Z) (msg : string) :
  fst (MonitorContainer k pid signals w) = Some (st, Some msg) <->
  exists st_n s rest w_n,
    continues_star k pid (0, signals, w) (st_n, s :: rest, w_n) /\
    ((s <> SIGCHLD /\ sys_err k (EvKill pid s) w_n <> None /\ st = st_n /\
      msg = "interrupted by signal " ++ signame k s) \/
     (s = SIGCHLD /\ exists wpid e,
        wait4 k pid WNOHANG w_n = (wpid, st, Some e) /\
        msg = "error while waiting child: " ++ e)).
Proof.
  unfold MonitorContainer. split; [apply MonitorContainer_loop_errors|].
  intros (st_n & s & rest & w_n & Hc & H).
  apply continues_star_run in Hc. cbn [run_state] in Hc. rewrite Hc.
  cbn [MonitorContainer_loop].
  destruct H as [(Hs & Hk & -> & ->) | (-> & wpid & e & Hw & ->)].
  - apply Z.eqb_neq in Hs. rewrite Hs. unfold bind, syscall_Kill, sys.
    destruct (sys_err k (EvKill pid s) w_n); [reflexivity | contradiction].
  - rewrite Z.eqb_refl. unfold bind, syscall_Wait4. rewrite Hw. reflexivity.
Qed.

(** SIGTERM is forwarded, SIGKILL cannot be: the call returns the error. *)
Lemma MonitorContainer_error_returns_witness :
  fst (MonitorContainer kernel_no_kill 5 [15; 9; 17] world_user) =
  Some (0, Some "interrupted by signal signal").
Proof.
  apply (proj2 (MonitorContainer_error_returns kernel_no_kill 5 [15; 9; 17]
                  world_user 0 "interrupted by signal signal")).
  exists 0, 9, [17], (snd (syscall_Kill kernel_no_kill 5 15 world_user)).
  split.
  - eapply continues_step; [|apply continues_refl].
    apply continues_forward; [discriminate | reflexivity].
  - left. repeat split; discriminate.
Defined.

Lemma MonitorContainer_loop_prefix (k : Kernel) (pid : Z) (l1 l2 : list Z) :
  forall st w,
  fst (MonitorContainer_loop k pid st l1 w) <> None ->
  MonitorContainer_loop k pid st (l1 ++ l2) w =
  MonitorContainer_loop k pid st l1 w.
Proof.
  induction l1 as [|s rest IH]; intros st w; [intros H; now elim H|].
  cbn [MonitorContainer_loop app].
  destruct (s =? SIGCHLD).
  - unfold bind. destruct (syscall_Wait4 k pid WNOHANG w) as [[[wpid st1] err] w1].
    destruct err; [reflexivity|].
    destruct (negb (wpid =? pid)); [apply IH | reflexivity].
  - unfold bind. destruct (syscall_Kill k pid s w) as [[e|] w1];
      [reflexivity | apply IH].
Qed.

(** Once [MonitorContainer] has returned, signals delivered later play no
    part: the result and the calls made are the same with any further
    signals queued behind those received. *)
Theorem MonitorContainer_ignores_later_signals
    (k : Kernel) (pid : Z) (received later : list Z) (w : World) :
  fst (MonitorContainer k pid received w) <> None ->
  MonitorContainer k pid (received ++ later) w =
  MonitorContainer k pid received w.
Proof. apply MonitorContainer_loop_prefix. Qed.

(** The child is reaped at the first SIGCHLD; what follows is not received. *)
Lemma MonitorContainer_ignores_later_signals_witness :
  MonitorContainer kernel_ok 5 ([15; 17] ++ [2; 17; 9]) world_user =
  MonitorContainer kernel_ok 5 [15; 17] world_user.
Proof.
  apply (MonitorContainer_ignores_later_signals kernel_ok 5 [15; 17] [2; 17; 9]
           world_user).
  discriminate.
Defined.

(** Every call [MonitorContainer] makes concerns the tracked pid, and SIGCHLD
    is never forwarded: a call is either the non-blocking reap of the pid or
    the forwarding to the pid of a delivered signal other than SIGCHLD. *)
Theorem MonitorContainer_calls_concern_child
    (k : Kernel) (pid : Z) (signals : list Z) (w : World) (e : Event) :
  In e (new_events w (snd (MonitorContainer k pid signals w))) ->
  e = EvWait4 pid WNOHANG \/
  exists s, In s signals /\ s <> SIGCHLD /\ e = EvKill pid s.
Proof.
  unfold MonitorContainer.
  destruct (MonitorContainer_loop_events k pid signals 0 w) as (n & _ & Ht & _).
  apply new_events_app in Ht. rewrite Ht. intros H.
  apply in_map_iff in H. destruct H as (s & <- & Hs).
  unfold signal_event. destruct (Z.eqb_spec s SIGCHLD); [left; reflexivity|].
  right. exists s. split; [|auto].
  rewrite <- (firstn_skipn n signals). apply in_or_app. left. exact Hs.
Qed.

(** A call made while SIGTERM and SIGCHLD are handled. *)
Lemma MonitorContainer_calls_concern_child_witness :
  EvKill 5 15 = EvWait4 5 WNOHANG \/
  exists s, In s [15; 17] /\ s <> SIGCHLD /\ EvKill 5 15 = EvKill 5 s.
Proof.
  apply (MonitorContainer_calls_concern_child kernel_ok 5 [15; 17] world_user).
  left. reflexivity.
Defined.

Lemma MonitorContainer_loop_no_sigchld (k : Kernel) (pid : Z) (signals : list Z) :
  ~ In SIGCHLD signals ->
  forall st w,
  match fst (MonitorContainer_loop k pid st signals w) with
  | Some (st', None) => False
  | Some (st', Some _) => st' = st
  | None =>
      trace (snd (MonitorContainer_loop k pid st signals w)) =
      (trace w ++ map (EvKill pid) signals)%list
  end.
Proof.
  induction signals as [|s rest IH]; intros Hn st w.
  - cbn. symmetry. apply app_nil_r.
  - cbn [MonitorContainer_loop].
    destruct (Z.eqb_spec s SIGCHLD) as [->|Hs]; [elim Hn; left; reflexivity|].
    unfold bind, syscall_Kill, sys.
    destruct (sys_err k (EvKill pid s) w) as [e|]; [reflexivity|].
    specialize (IH (fun H => Hn (or_intror H)) st
                   (set_trace (trace w ++ [EvKill pid s]) w)).
    destruct (fst (MonitorContainer_loop k pid st rest _)) as [[st' [m|]]|];
      auto.
    rewrite IH. cbn. rewrite <- app_assoc. reflexivity.
Qed.

(** Without a SIGCHLD, [MonitorContainer] never returns a status: it returns
    only if a forward fails, then with an error and status 0, it makes no
    reap, and while it has not returned it has forwarded every signal
    delivered, in order. *)
Theorem MonitorContainer_needs_sigchld
    (k : Kernel) (pid : Z) (signals : list Z) (w : World) :
  ~ In SIGCHLD signals ->
  let r := MonitorContainer k pid signals w in
  (forall st, fst r <> Some (st, None)) /\
  (forall st msg, fst r = Some (st, Some msg) -> st = 0) /\
  (fst r = None -> new_events w (snd r) = map (EvKill pid) signals).
Proof.
  intros Hn. cbv zeta. unfold MonitorContainer.
  pose proof (MonitorContainer_loop_no_sigchld k pid signals Hn 0 w) as H.
  destruct (fst (MonitorContainer_loop k pid 0 signals w)) as [[st' [m|]]|].
  - split; [|split].
    + intros st. discriminate.
    + intros st msg E. congruence.
    + discriminate.
  - contradiction.
  - split; [|split].
    + intros st. discriminate.
    + discriminate.
    + intros _. apply new_events_app. exact H.
Qed.

(** Three signals, none of them SIGCHLD: all forwarded, no return. *)
Lemma MonitorContainer_needs_sigchld_witness :
  let r := MonitorContainer kernel_ok 5 [15; 2; 1] world_user in
  fst r = None /\
  new_events world_user (snd r) = [EvKill 5 15; EvKill 5 2; EvKill 5 1].
Proof.
  cbv zeta.
  assert (Hn : ~ In SIGCHLD [15; 2; 1]).
  { intros [H|[H|[H|[]]]]; discriminate H. }
  destruct (MonitorContainer_needs_sigchld kernel_ok 5 [15; 2; 1] world_user Hn)
    as (_ & _ & H).
  split; [reflexivity | exact (H eq_refl)].
Defined.

(** ** Chdir *)

(** The state a successful [Chroot] with a known strategy leaves. *)
Lemma Chroot_success_state (k : Kernel) (a : ChrootArgs) (w : World) :
  known_method (Method a) = true ->
  fst (Chroot k a w) = None ->
  root (snd (Chroot k a w)) = resolve w (Root a) /\
  cwd (snd (Chroot k a w)) = "/".
Proof.
  destruct a as [rt m]. unfold known_method. cbn [Root Method].
  unfold_chroot. cbn [Root Method].
  destruct (rt =? ".")%string eqn:Er;
    [apply String.eqb_eq in Er; subst rt|];
    destruct (m =? "pivot")%string;
    try destruct (m =? "move")%string;
    try destruct (m =? "chroot")%string;
    try discriminate;
    intros _; crunch; cbn [fst snd]; intros Hs; try discriminate Hs.
  all: split; reflexivity.
Qed.

(** [Chdir] to an absolute directory followed by a successful [Chroot] of "."
    with one of the three strategies: the root of the process is that
    directory and its working directory is the root. *)
Theorem Chdir_then_Chroot_here
    (k k' : Kernel) (dir method : string) (w : World) :
  is_absolute dir = true ->
  known_method method = true ->
  fst (Chdir k dir w) = None ->
  fst (Chroot k' (mkChrootArgs "." method) (snd (Chdir k dir w))) = None ->
  let w' := snd (Chroot k' (mkChrootArgs "." method) (snd (Chdir k dir w))) in
  root w' = dir /\ cwd w' = "/".
Proof.
  intros Ha Hk Hc Hs. cbv zeta.
  destruct (Chroot_success_state k' (mkChrootArgs "." method) _ Hk Hs)
    as [Hr Hw].
  split; [|exact Hw]. rewrite Hr. cbn [Root]. unfold resolve at 1. cbn.
  revert Hc. unfold Chdir, mainthread_Chdir, mainthread_Execute, syscall_Chdir, sys.
  destruct (sys_err k (EvChdir dir) w); [discriminate|]. intros _. cbn.
  unfold resolve. rewrite Ha. reflexivity.
Qed.

(** Into the session directory, then a pivot of ".". *)
Lemma Chdir_then_Chroot_here_witness :
  let w' := snd (Chroot kernel_ok (mkChrootArgs "." "pivot")
                   (snd (Chdir kernel_ok "/var/session/final" world_user))) in
  root w' = "/var/session/final" /\ cwd w' = "/".
Proof.
  exact (Chdir_then_Chroot_here kernel_ok kernel_ok "/var/session/final" "pivot"
           world_user eq_refl eq_refl eq_refl eq_refl).
Defined.

(** ** cleanEnv *)

Lemma env_key_spec (K : string) :
  no_equals K = true ->
  forall v, env_key v = K <-> v = K \/ exists rest, v = K ++ String "=" rest.
Proof.
  induction K as [|a K IH]; intros HK v.
  - destruct v as [|c s]; cbn.
    + split; auto.
    + destruct (Ascii.eqb_spec c "="%char) as [->|Hc].
      * split; [right; exists s; reflexivity | reflexivity].
      * split; [discriminate|].
        intros [H|[rest H]]; [discriminate H|]. inversion H. contradiction.
  - cbn [no_equals] in HK. apply andb_prop in HK. destruct HK as [Ha HK].
    apply negb_true_iff in Ha. apply Ascii.eqb_neq in Ha.
    destruct v as [|c s]; cbn [env_key append].
    + split; [discriminate|]. intros [H|[rest H]]; discriminate H.
    + destruct (Ascii.eqb_spec c "="%char) as [->|Hc].
      * split; [discriminate|].
        intros [H|[rest H]]; inversion H; congruence.
      * split.
        -- intros H. injection H as Hca Hks. subst c.
           destruct (proj1 (IH HK s) Hks) as [->|[rest ->]];
             [left; reflexivity | right; exists rest; reflexivity].
        -- intros [H|[rest H]]; inversion H; subst; f_equal; apply IH; auto.
           right. exists rest. reflexivity.
Qed.

Lemma fold_left_select {A} (p : A -> bool) (l : list A) :
  forall acc,
  fold_left (fun env v => if p v then (env ++ [v])%list else env) l acc =
  (acc ++ filter p l)%list.
Proof.
  induction l as [|v l IH]; intros acc; cbn.
  - symmetry. apply app_nil_r.
  - rewrite IH. destruct (p v); [|reflexivity].
    rewrite <- app_assoc. reflexivity.
Qed.

(** [cleanEnv] leaves, after the environment [env.SetContainerEnv] builds
    from an empty one, the variables of the former environment that are
    build variables, in their order and as often as they occurred.  A
    variable is a build variable exactly when it is SINGULARITY_ROOTFS or
    SINGULARITY_ENVIRONMENT, alone or followed by an equals sign and
    anything: a longer name with one of them as prefix is not exposed. *)
Theorem cleanEnv_exposes_build_vars
    (setContainerEnv : list string -> list string -> bool -> string -> list string)
    (environment : list string) :
  cleanEnv setContainerEnv environment =
    (setContainerEnv [] environment true "/root" ++
     filter is_build_var environment)%list /\
  forall v,
    is_build_var v = true <->
    exists K,
      (K = "SINGULARITY_ROOTFS" \/ K = "SINGULARITY_ENVIRONMENT") /\
      (v = K \/ exists rest, v = K ++ "=" ++ rest).
Proof.
  split; [apply fold_left_select|].
  intros v. unfold is_build_var. rewrite orb_true_iff, !String.eqb_eq.
  rewrite (env_key_spec "SINGULARITY_ROOTFS" eq_refl v).
  rewrite (env_key_spec "SINGULARITY_ENVIRONMENT" eq_refl v).
  split.
  - intros [H|H]; eexists; (split; [|exact H]); auto.
  - intros (K & HK & H). destruct HK; subst K; auto.
Qed.

(** The root of the build is exposed; a variable that only starts with the
    name is not. *)
Lemma cleanEnv_exposes_build_vars_witness :
  cleanEnv (fun genv _ _ home => (genv ++ [append "HOME=" home])%list)
    ["PATH=/bin"; "SINGULARITY_ROOTFS=/tmp/rootfs"; "SINGULARITY_ROOTFS_X=1";
     "SINGULARITY_ENVIRONMENT"]
  = ["HOME=/root"; "SINGULARITY_ROOTFS=/tmp/rootfs"; "SINGULARITY_ENVIRONMENT"] /\
  is_build_var "SINGULARITY_ROOTFS=/tmp/rootfs" = true.
Proof.
  split.
  - rewrite (proj1 (cleanEnv_exposes_build_vars
                      (fun genv _ _ home => (genv ++ [append "HOME=" home])%list)
                      ["PATH=/bin"; "SINGULARITY_ROOTFS=/tmp/rootfs";
                       "SINGULARITY_ROOTFS_X=1"; "SINGULARITY_ENVIRONMENT"])).
    reflexivity.
  - apply (proj2 (cleanEnv_exposes_build_vars (fun genv _ _ _ => genv) [])
                 "SINGULARITY_ROOTFS=/tmp/rootfs").
    exists "SINGULARITY_ROOTFS". split; [left; reflexivity|].
    right. exists "/tmp/rootfs". reflexivity.
Defined.
